(** * Certificate reconciliation ([pkg/controller/certificates/sync.go])

    A shallow embedding of the certificate controller's reconciliation pass:
    [sync], its issuance path [issue] and the domain comparator
    [equalUnsorted], together with the properties of these three functions.

    Go values are embedded as follows.
    - [string] is Go's byte string; [<] on strings is byte-wise
      lexicographic, which is [String.ltb].
    - [[]byte] is [list Byte.byte]; [map[string][]byte] is a [gmap].
    - A slice argument is caller-owned memory: a function that writes
      through it returns the new contents next to its result.
    - [error] is an inductive type, [nil] is [None].
    - Calls that leave the function (listers, issuer backend, API client,
      logger) are answered by the [Context] and recorded, in order, in a
      journal of effects that is threaded through the pass. *)

From Stdlib Require Import Strings.String Strings.Ascii Strings.Byte.
From Stdlib Require Import Sorting.Sorted Sorting.Permutation.
From stdpp Require Import base option list strings gmap sorting.

Local Open Scope string_scope.
Local Open Scope list_scope.

(** ** Go strings and [sort.Strings] *)

Abbreviation bytes := (list Byte.byte).

(** [sort.StringSlice.Less]: [x[i] < x[j]]. *)
Definition Less (a b : string) : bool := String.ltb a b.

(** The order [sort.Strings] arranges a slice in. *)
Definition string_le (a b : string) : Prop := String.leb a b = true.

(** [sort.Strings] belongs to Go's library.  It rearranges the slice in
    increasing order; strings that compare equal are the same string, so the
    outcome does not depend on the algorithm the library picks.  It is
    computed here by straight insertion. *)
Fixpoint insert_sorted (x : string) (l : list string) : list string :=
  match l with
  | [] => [x]
  | y :: l' => if Less y x then y :: insert_sorted x l' else x :: y :: l'
  end.

Fixpoint sort_Strings (l : list string) : list string :=
  match l with
  | [] => []
  | x :: l' => insert_sorted x (sort_Strings l')
  end.

(** ** Outcomes of a Go call *)

(** A call either returns or panics (here: only on an index out of range). *)
Inductive go (A : Type) : Type :=
| Returns (a : A)
| Panics (msg : string).
Arguments Returns {A} a.
Arguments Panics {A} msg.

(** ** [equalUnsorted] *)

(** [make([]string, n)]: [n] zero values. *)
Definition make_strings (n : nat) : list string := replicate n "".

(** The loop [for i, s := range s1_2 { if s != s2_2[i] { return false } }]
    followed by [return true].  [rest] is what remains of [s1_2] from index
    [i] on.  The index expression [s2_2[i]] panics when out of range. *)
Fixpoint range_compare (rest : list string) (i : nat) (s2_2 : list string)
  : go bool :=
  match rest with
  | [] => Returns true
  | s :: rest' =>
      match s2_2 !! i with
      | None => Panics "index out of range"
      | Some t =>
          if negb (String.eqb s t) then Returns false
          else range_compare rest' (S i) s2_2
      end
  end.

(** [equalUnsorted(s1, s2)].  The result comes with the contents of the two
    argument slices when the call ends. *)
Definition equalUnsorted (s1 s2 : list string)
  : go bool * (list string * list string) :=
  if negb (Nat.eqb (length s1) (length s2)) then (Returns false, (s1, s2))
  else
    let s1_2 := make_strings (length s1) in
    let s2_2 := make_strings (length s2) in
    let s1 := sort_Strings s1 in
    let s2 := sort_Strings s2 in
    (range_compare s1_2 0 s2_2, (s1, s2)).

(** The comparator as section 4.3 of the design words it: equal length and,
    once both are sorted independently, element-wise identical. *)
Definition equalSets_spec (requested actual : list string) : bool :=
  Nat.eqb (length requested) (length actual)
  && bool_decide (sort_Strings requested = sort_Strings actual).

(** ** Errors *)

(** [metav1.StatusReason], the reasons the pass can meet. *)
Inductive StatusReason : Type :=
| StatusReasonUnknown
| StatusReasonNotFound
| StatusReasonAlreadyExists
| StatusReasonConflict
| StatusReasonServerTimeout
| StatusReasonInternalError.

(** Go's [error] values: the ones built by [fmt.Errorf] and the API status
    errors of [k8s.io/apimachinery/pkg/api/errors]. *)
Inductive error : Type :=
| errorString (s : string)
| StatusError (reason : StatusReason) (message : string).

(** [err.Error()] *)
Definition Error (err : error) : string :=
  match err with
  | errorString s => s
  | StatusError _ message => message
  end.

(** [fmt.Errorf] once its [%s] verbs are filled in. *)
Definition Errorf (msg : string) : error := errorString msg.

(** [k8sErrors.IsNotFound] *)
Definition IsNotFound (err : error) : bool :=
  match err with
  | StatusError StatusReasonNotFound _ => true
  | _ => false
  end.

(** [k8sErrors.IsAlreadyExists] (the pass never calls it). *)
Definition IsAlreadyExists (err : error) : bool :=
  match err with
  | StatusError StatusReasonAlreadyExists _ => true
  | _ => false
  end.

(** A Go result pair [(value, err)]. *)
Inductive result (A : Type) : Type :=
| Ok (a : A)
| Err (err : error).
Arguments Ok {A} a.
Arguments Err {A} err.

(** ** API objects *)

Record ObjectMeta : Type := { Name : string; Namespace : string }.

(** [v1alpha1.CertificateSpec]; the field [Issuer] is [SpecIssuer] here. *)
Record CertificateSpec : Type :=
  { Domains : list string; SecretName : string; SpecIssuer : string }.

Record Certificate : Type :=
  { crt_ObjectMeta : ObjectMeta; Spec : CertificateSpec }.

Record IssuerStatus : Type := { Ready : bool }.

Record Issuer : Type :=
  { iss_ObjectMeta : ObjectMeta; Status : IssuerStatus }.

(** [api.Secret] *)
Record Secret : Type :=
  { sec_ObjectMeta : ObjectMeta; Data : gmap string bytes }.

Definition TLSCertKey : string := "tls.crt".
Definition TLSPrivateKeyKey : string := "tls.key".

(** [pem.Block] and the part of [x509.Certificate] the pass reads. *)
Record pem_Block : Type := { Bytes : bytes }.
Record x509_Certificate : Type := { DNSNames : list string }.

(** [issuer.Interface] *)
Record Interface : Type :=
  { Prepare : Certificate -> option error;
    Issue : Certificate -> result (bytes * bytes) }.

(** What [controller.Context] gives access to: the two listers and the API
    client, each answering by namespace. *)
Record Context : Type :=
  { Issuers_Lister_Get : string -> string -> result Issuer;
    Secrets_Lister_Get : string -> string -> result Secret;
    Client_Secrets_Create : string -> Secret -> result Secret }.

(** ** Effects *)

Inductive effect : Type :=
| IssuersGet (ns name : string)
| CallPrepare (crt : Certificate)
| SecretsGet (ns name : string)
| CallIssue (crt : Certificate)
| SecretsCreate (ns : string) (secret : Secret)
| LoggerPrintf (msg : string).

Definition journal : Type := list effect.

Definition M (A : Type) : Type := journal -> go A * journal.

Definition ret {A : Type} (a : A) : M A := fun j => (Returns a, j).

Definition bind {A B : Type} (m : M A) (k : A -> M B) : M B :=
  fun j =>
    match m j with
    | (Returns a, j') => k a j'
    | (Panics msg, j') => (Panics msg, j')
    end.

Definition perform (e : effect) : M unit := fun j => (Returns tt, j ++ [e]).

Notation "x <- m ;; k" := (bind m (fun x => k))
  (at level 100, m at next level, right associativity, only parsing).
Notation "m ;;; k" := (bind m (fun _ => k))
  (at level 100, right associativity, only parsing).

(** [v, ok := m[k]] *)
Definition map_index (m : gmap string bytes) (k : string) : bytes * bool :=
  match m !! k with
  | Some v => (v, true)
  | None => ([], false)
  end.

Definition is_store_read (e : effect) : bool :=
  match e with SecretsGet _ _ => true | _ => false end.

Definition is_store_write (e : effect) : bool :=
  match e with SecretsCreate _ _ => true | _ => false end.

Definition is_issue_call (e : effect) : bool :=
  match e with CallIssue _ => true | _ => false end.

(** What a journal shows of a pass. *)
Definition store_read (j : journal) : bool := existsb is_store_read j.
Definition store_written (j : journal) : bool := existsb is_store_write j.
Definition issuance_attempted (j : journal) : bool := existsb is_issue_call j.

(** ** [issue] *)

(** The [api.Secret] literal that [issue] hands to [Create]. *)
Definition new_Secret (crt : Certificate) (cert key : bytes) : Secret :=
  {| sec_ObjectMeta :=
       {| Name := SecretName (Spec crt);
          Namespace := Namespace (crt_ObjectMeta crt) |};
     Data := <[TLSCertKey := cert]> (<[TLSPrivateKeyKey := key]> ∅) |}.

Definition issue (ctx : Context) (issuer : Interface) (crt : Certificate)
  : M (option error) :=
  perform (CallIssue crt);;;
  match Issue issuer crt with
  | Err err =>
      ret (Some (Errorf ("error issuing certificate: " ++ Error err)))
  | Ok (cert, key) =>
      let secret := new_Secret crt cert key in
      perform (SecretsCreate (Namespace (crt_ObjectMeta crt)) secret);;;
      match Client_Secrets_Create ctx (Namespace (crt_ObjectMeta crt)) secret with
      | Err err =>
          ret (Some (Errorf ("error saving certificate: " ++ Error err)))
      | Ok _ => ret None
      end
  end.

(** [return issue(ctx, i, crt)] inside [sync], whose model hands back the
    certificate object as well. *)
Definition returning (crt : Certificate) (m : M (option error))
  : M (option error * Certificate) :=
  err <- m;; ret (err, crt).

(** ** A small cluster to run the pass on

    Stand-ins for the PEM and X.509 decoders, and a cluster with one
    certificate request, one issuer and one backend.  The stand-in decoders
    keep the shape of the real ones: an empty input holds no PEM block, a
    DER payload that starts with a zero byte does not parse, and a parsed
    certificate carries the payload as its only DNS name. *)

Definition demo_pem_Decode (data : bytes) : option pem_Block :=
  match data with
  | [] => None
  | _ => Some {| Bytes := data |}
  end.

Definition demo_ParseCertificate (der : bytes) : result x509_Certificate :=
  match der with
  | x00 :: _ => Err (errorString "x509: malformed certificate")
  | _ => Ok {| DNSNames := [string_of_list_byte der] |}
  end.

Definition demo_ParsePKCS1PrivateKey (der : bytes) : result bytes :=
  match der with
  | x00 :: _ => Err (errorString "x509: failed to parse private key")
  | _ => Ok der
  end.

Definition demo_Validate (key : bytes) : option error :=
  match key with
  | x01 :: _ => Some (errorString "crypto/rsa: invalid exponents")
  | _ => None
  end.

Definition site : Certificate :=
  {| crt_ObjectMeta := {| Name := "site"; Namespace := "default" |};
     Spec := {| Domains := ["example.com"];
                SecretName := "site-tls";
                SpecIssuer := "prod-ca" |} |}.

Definition prod_ca (ready : bool) : Issuer :=
  {| iss_ObjectMeta := {| Name := "prod-ca"; Namespace := "default" |};
     Status := {| Ready := ready |} |}.

Definition tls_secret (cert key : bytes) : Secret :=
  {| sec_ObjectMeta := {| Name := "site-tls"; Namespace := "default" |};
     Data := <[TLSCertKey := cert]> (<[TLSPrivateKeyKey := key]> ∅) |}.

(** A backend whose [Prepare] answers [prepared] and whose [Issue] answers
    [issued]. *)
Definition backend (prepared : option error) (issued : result (bytes * bytes))
  : Interface :=
  {| Prepare := fun _ => prepared; Issue := fun _ => issued |}.

Definition fresh_pair : bytes * bytes :=
  (list_byte_of_string "example.com", list_byte_of_string "key").

Definition working_backend : Interface := backend None (Ok fresh_pair).

(** A cluster that knows the issuer [prod-ca] with the given readiness,
    answers the secret lister with [read] and a create with [created]. *)
Definition cluster (ready : bool) (read : result Secret)
    (created : Secret -> result Secret) : Context :=
  {| Issuers_Lister_Get := fun _ name =>
       if String.eqb name "prod-ca" then Ok (prod_ca ready)
       else Err (StatusError StatusReasonNotFound "issuer not found");
     Secrets_Lister_Get := fun _ _ => read;
     Client_Secrets_Create := fun _ secret => created secret |}.

Definition demo_IssuerFor (i : Interface) (_ : Context) (_ : Issuer)
  : result Interface := Ok i.

Definition not_found : error :=
  StatusError StatusReasonNotFound "secret 'site-tls' not found".

Definition already_exists : error :=
  StatusError StatusReasonAlreadyExists "secrets 'site-tls' already exists".

Definition server_timeout : error :=
  StatusError StatusReasonServerTimeout "the server timed out".

(** A request for two names, listed out of order. *)
Definition two_sites : Certificate :=
  {| crt_ObjectMeta := {| Name := "sites"; Namespace := "default" |};
     Spec := {| Domains := ["b.example.com"; "a.example.com"];
                SecretName := "site-tls";
                SpecIssuer := "prod-ca" |} |}.

(** A request that names an issuer the cluster does not know. *)
Definition orphan : Certificate :=
  {| crt_ObjectMeta := {| Name := "orphan"; Namespace := "default" |};
     Spec := {| Domains := ["example.com"];
                SecretName := "orphan-tls";
                SpecIssuer := "staging-ca" |} |}.

(** A stored secret that holds a certificate and no key. *)
Definition keyless_secret : Secret :=
  {| sec_ObjectMeta := {| Name := "site-tls"; Namespace := "default" |};
     Data := <[TLSCertKey := list_byte_of_string "example.com"]> ∅ |}.

(** ** [sync] *)

Section Reconcile.

(** Go's [encoding/pem] and [crypto/x509], and the issuer factory
    [issuer.IssuerFor] of [pkg/issuer]: the pass only calls them. *)
Variable PrivateKey : Type.
Variable pem_Decode : bytes -> option pem_Block.
Variable x509_ParseCertificate : bytes -> result x509_Certificate.
Variable x509_ParsePKCS1PrivateKey : bytes -> result PrivateKey.
Variable Validate : PrivateKey -> option error.
Variable IssuerFor : Context -> Issuer -> result Interface.

(** [crt] is a pointer: the pass returns, next to its error, the
    certificate object as it leaves it. *)
Definition sync (ctx : Context) (crt : Certificate)
  : M (option error * Certificate) :=
  let ns := Namespace (crt_ObjectMeta crt) in
  (* step zero: check if the referenced issuer exists and is ready *)
  perform (IssuersGet ns (SpecIssuer (Spec crt)));;;
  match Issuers_Lister_Get ctx ns (SpecIssuer (Spec crt)) with
  | Err _ =>
      ret (Some (Errorf ("issuer '" ++ SpecIssuer (Spec crt)
                         ++ "' for certificate '"
                         ++ Name (crt_ObjectMeta crt)
                         ++ "' does not exist")), crt)
  | Ok issuerObj =>
  if negb (Ready (Status issuerObj)) then
    ret (Some (Errorf ("issuer '" ++ Namespace (iss_ObjectMeta issuerObj)
                       ++ "/" ++ Name (iss_ObjectMeta issuerObj)
                       ++ "' for certificate '"
                       ++ Name (crt_ObjectMeta crt) ++ "' not ready")), crt)
  else
  match IssuerFor ctx issuerObj with
  | Err err =>
      ret (Some (Errorf ("error getting issuer implementation for issuer '"
                         ++ Name (iss_ObjectMeta issuerObj) ++ "': "
                         ++ Error err)), crt)
  | Ok i =>
  perform (CallPrepare crt);;;
  match Prepare i crt with
  | Some err => ret (Some err, crt)
  | None =>
  (* step one: check if referenced secret exists, if not, trigger issue *)
  perform (SecretsGet ns (SecretName (Spec crt)));;;
  match Secrets_Lister_Get ctx ns (SecretName (Spec crt)) with
  | Err err =>
      if IsNotFound err then returning crt (issue ctx i crt)
      else ret (Some err, crt)
  | Ok secret =>
  let '(certBytes, okcert) := map_index (Data secret) TLSCertKey in
  let '(keyBytes, okkey) := map_index (Data secret) TLSPrivateKeyKey in
  (* check if the certificate and private key exist *)
  if negb okcert || negb okkey then returning crt (issue ctx i crt) else
  (* decode the tls certificate pem *)
  match pem_Decode certBytes with
  | None =>
      perform (LoggerPrintf ("error decoding cert PEM block in '"
                             ++ SecretName (Spec crt) ++ "'"));;;
      returning crt (issue ctx i crt)
  | Some block =>
  (* parse the tls certificate *)
  match x509_ParseCertificate (Bytes block) with
  | Err err =>
      perform (LoggerPrintf ("error parsing TLS certificate in '"
                             ++ SecretName (Spec crt) ++ "': "
                             ++ Error err));;;
      returning crt (issue ctx i crt)
  | Ok cert =>
  (* decode the private key pem *)
  match pem_Decode keyBytes with
  | None =>
      perform (LoggerPrintf ("error decoding private key PEM block in '"
                             ++ SecretName (Spec crt) ++ "'"));;;
      returning crt (issue ctx i crt)
  | Some block =>
  (* parse the private key *)
  match x509_ParsePKCS1PrivateKey (Bytes block) with
  | Err err =>
      perform (LoggerPrintf ("error parsing private key in '"
                             ++ SecretName (Spec crt) ++ "': "
                             ++ Error err));;;
      returning crt (issue ctx i crt)
  | Ok key =>
  (* validate the private key *)
  match Validate key with
  | Some err =>
      perform (LoggerPrintf ("private key failed validation in '"
                             ++ SecretName (Spec crt) ++ "': "
                             ++ Error err));;;
      returning crt (issue ctx i crt)
  | None =>
  (* step two: check if referenced secret is valid for listed domains *)
  let '(equal, (domains, _)) :=
    equalUnsorted (Domains (Spec crt)) (DNSNames cert) in
  (* the sort inside [equalUnsorted] wrote through [crt.Spec.Domains] *)
  let crt :=
    {| crt_ObjectMeta := crt_ObjectMeta crt;
       Spec := {| Domains := domains;
                  SecretName := SecretName (Spec crt);
                  SpecIssuer := SpecIssuer (Spec crt) |} |} in
  match equal with
  | Panics msg => fun j => (Panics msg, j)
  | Returns equal =>
  if negb equal then
    perform (LoggerPrintf
               "list of domains on certificate do not match domains in spec");;;
    returning crt (issue ctx i crt)
  else ret (None, crt)
  end end end end end end end end end end.


(** ** Vocabulary of the design document *)

(** Step zero is behind the pass: the issuer was found and is ready, its
    implementation [i] was resolved and [Prepare] succeeded. *)
Definition step_zero_passes (ctx : Context) (crt : Certificate)
    (i : Interface) : Prop :=
  exists issuerObj,
    Issuers_Lister_Get ctx (Namespace (crt_ObjectMeta crt))
      (SpecIssuer (Spec crt)) = Ok issuerObj
    /\ Ready (Status issuerObj) = true
    /\ IssuerFor ctx issuerObj = Ok i
    /\ Prepare i crt = None.

(** The referenced issuer resolves and is ready. *)
Definition issuer_ready (ctx : Context) (crt : Certificate) : Prop :=
  exists issuerObj,
    Issuers_Lister_Get ctx (Namespace (crt_ObjectMeta crt))
      (SpecIssuer (Spec crt)) = Ok issuerObj
    /\ Ready (Status issuerObj) = true.

(** What the secret lister answers for the request's secret. *)
Definition stored (ctx : Context) (crt : Certificate) : result Secret :=
  Secrets_Lister_Get ctx (Namespace (crt_ObjectMeta crt))
    (SecretName (Spec crt)).

(** The stored credential is absent. *)
Definition absent (ctx : Context) (crt : Certificate) : Prop :=
  exists err, stored ctx crt = Err err /\ IsNotFound err = true.

(** Both well-known fields are present, and the certificate and the private
    key both decode and parse. *)
Definition parses (secret : Secret) (cert : x509_Certificate)
    (key : PrivateKey) : Prop :=
  exists certBytes keyBytes block block',
    Data secret !! TLSCertKey = Some certBytes
    /\ Data secret !! TLSPrivateKeyKey = Some keyBytes
    /\ pem_Decode certBytes = Some block
    /\ x509_ParseCertificate (Bytes block) = Ok cert
    /\ pem_Decode keyBytes = Some block'
    /\ x509_ParsePKCS1PrivateKey (Bytes block') = Ok key.

(** Invariant 1: the stored credential is valid for the request. *)
Definition valid (ctx : Context) (crt : Certificate) : Prop :=
  exists secret cert key,
    stored ctx crt = Ok secret
    /\ parses secret cert key
    /\ Validate key = None
    /\ equalSets_spec (Domains (Spec crt)) (DNSNames cert) = true.

(** The stored credential is present, parses, its key validates and its
    certificate carries as many names as the request has domains. *)
Definition sound_with_as_many_names (ctx : Context) (crt : Certificate)
  : Prop :=
  exists secret cert key,
    stored ctx crt = Ok secret
    /\ parses secret cert key
    /\ Validate key = None
    /\ length (Domains (Spec crt)) = length (DNSNames cert).

(** The effects of a pass that gets as far as reading the store. *)
Definition effects_up_to_read (crt : Certificate) : journal :=
  [IssuersGet (Namespace (crt_ObjectMeta crt)) (SpecIssuer (Spec crt));
   CallPrepare crt;
   SecretsGet (Namespace (crt_ObjectMeta crt)) (SecretName (Spec crt))].

(** The effects of one pass. *)
Definition pass_effects (ctx : Context) (crt : Certificate) : journal :=
  snd (sync ctx crt []).

(** Invariant 2 for passes whose issuer resolves and is ready: issuance is
    attempted exactly when the credential is absent or not valid. *)
Definition issues_iff_absent_or_invalid (ctx : Context) (crt : Certificate)
  : Prop :=
  issuer_ready ctx crt ->
  (issuance_attempted (pass_effects ctx crt) = true
   <-> absent ctx crt \/ ~ valid ctx crt).

(** Section 4.2 on a duplicate create: when the create of [issue] fails with
    [AlreadyExists], [issue] reports success. *)
Definition AlreadyExists_is_benign (ctx : Context) (issuer : Interface)
    (crt : Certificate) : Prop :=
  forall cert key err,
    Issue issuer crt = Ok (cert, key) ->
    Client_Secrets_Create ctx (Namespace (crt_ObjectMeta crt))
      (new_Secret crt cert key) = Err err ->
    IsAlreadyExists err = true ->
    forall j, fst (issue ctx issuer crt j) = Returns None.

(** The pass goes to [issue] after reading the store and logging [logged]:
    it returns what [issue] returns and hands the request back as it got
    it. *)
Definition goes_to_issue (ctx : Context) (crt : Certificate) (i : Interface)
    (logged : journal) : Prop :=
  forall j,
  exists err d,
    issue ctx i crt [] = (Returns err, CallIssue crt :: d)
    /\ sync ctx crt j
       = (Returns (err, crt),
          j ++ effects_up_to_read crt ++ logged ++ CallIssue crt :: d).

(** The request once [sort.Strings] has gone over its domains. *)
Definition sorted_request (crt : Certificate) : Certificate :=
  {| crt_ObjectMeta := crt_ObjectMeta crt;
     Spec := {| Domains := sort_Strings (Domains (Spec crt));
                SecretName := SecretName (Spec crt);
                SpecIssuer := SpecIssuer (Spec crt) |} |}.

(** The three ways a pass can go: it stops on a hard error of its own, it
    goes to [issue], or it finds nothing to do. *)
Inductive pass_shape (ctx : Context) (crt : Certificate) : Prop :=
| StopsEarly (err : error) (seen : journal) :
    seen = [IssuersGet (Namespace (crt_ObjectMeta crt))
              (SpecIssuer (Spec crt))]
    \/ seen = [IssuersGet (Namespace (crt_ObjectMeta crt))
                 (SpecIssuer (Spec crt)); CallPrepare crt]
    \/ seen = effects_up_to_read crt ->
    (forall j, sync ctx crt j = (Returns (Some err, crt), j ++ seen)) ->
    pass_shape ctx crt
| Issues (i : Interface) (logged : journal) :
    step_zero_passes ctx crt i ->
    logged = [] \/ (exists msg, logged = [LoggerPrintf msg]) ->
    goes_to_issue ctx crt i logged ->
    pass_shape ctx crt
| NoOp :
    (forall j,
        sync ctx crt j
        = (Returns (None, sorted_request crt), j ++ effects_up_to_read crt)) ->
    pass_shape ctx crt.

(** How many effects of a journal satisfy [p]. *)
Definition times (p : effect -> bool) (j : journal) : nat :=
  length (List.filter p j).

Definition is_issuer_lookup (e : effect) : bool :=
  match e with IssuersGet _ _ => true | _ => false end.

Definition is_prepare_call (e : effect) : bool :=
  match e with CallPrepare _ => true | _ => false end.

(** * Properties *)

(** ** [sort.Strings] *)

Lemma Less_false_le (x y : string) : Less y x = false -> string_le x y.
Proof.
  unfold Less, string_le, String.ltb, String.leb.
  rewrite (String.compare_antisym x y).
  destruct (String.compare y x); simpl; congruence.
Qed.

Lemma Less_true_le (x y : string) : Less y x = true -> string_le y x.
Proof.
  unfold Less, string_le, String.ltb, String.leb.
  destruct (String.compare y x); congruence.
Qed.



Lemma insert_sorted_Permutation (x : string) (l : list string) :
  Permutation (insert_sorted x l) (x :: l).
Proof.
  induction l as [|y l IH]; simpl; [reflexivity|].
  destruct (Less y x); [|reflexivity].
  rewrite IH. apply perm_swap.
Qed.

Lemma sort_Strings_Permutation (l : list string) :
  Permutation (sort_Strings l) l.
Proof.
  induction l as [|x l IH]; simpl; [reflexivity|].
  rewrite insert_sorted_Permutation. now constructor.
Qed.

Lemma insert_sorted_HdRel (a x : string) (l : list string) :
  string_le a x -> HdRel string_le a l -> HdRel string_le a (insert_sorted x l).
Proof.
  intros Hax Hal. destruct l as [|y l]; simpl; [now constructor|].
  destruct (Less y x); constructor; [now inversion Hal | assumption].
Qed.

Lemma insert_sorted_Sorted (x : string) (l : list string) :
  Sorted string_le l -> Sorted string_le (insert_sorted x l).
Proof.
  induction 1 as [|y l Hl IH Hhd]; simpl.
  - repeat constructor.
  - destruct (Less y x) eqn:E.
    + constructor; [exact IH|].
      apply insert_sorted_HdRel; [now apply Less_true_le | exact Hhd].
    + constructor; [now constructor|].
      constructor. now apply Less_false_le.
Qed.

Lemma sort_Strings_Sorted (l : list string) : Sorted string_le (sort_Strings l).
Proof.
  induction l as [|x l IH]; simpl; [constructor|].
  now apply insert_sorted_Sorted.
Qed.

Lemma Ascii_compare_refl (c : ascii) : Ascii.compare c c = Eq.
Proof. unfold Ascii.compare. apply N.compare_refl. Qed.

Lemma Ascii_compare_Lt_trans (a b c : ascii) :
  Ascii.compare a b = Lt -> Ascii.compare b c = Lt -> Ascii.compare a c = Lt.
Proof.
  unfold Ascii.compare. rewrite !N.compare_lt_iff. apply N.lt_trans.
Qed.

Lemma String_compare_le_trans (a b c : string) :
  String.compare a b <> Gt -> String.compare b c <> Gt ->
  String.compare a c <> Gt.
Proof.
  revert b c. induction a as [|x a IH]; intros [|y b] [|z c]; simpl;
    try congruence.
  destruct (Ascii.compare x y) eqn:Exy; try congruence;
    destruct (Ascii.compare y z) eqn:Eyz; try congruence.
  - apply Ascii.compare_eq_iff in Exy, Eyz. subst.
    rewrite Ascii_compare_refl. apply IH.
  - apply Ascii.compare_eq_iff in Exy. subst. rewrite Eyz. congruence.
  - apply Ascii.compare_eq_iff in Eyz. subst. rewrite Exy. congruence.
  - rewrite (Ascii_compare_Lt_trans _ _ _ Exy Eyz). congruence.
Qed.

#[local] Instance string_le_trans : Transitive string_le.
Proof.
  intros a b c. unfold string_le, String.leb. intros Hab Hbc.
  pose proof (String_compare_le_trans a b c) as H.
  destruct (String.compare a b); try discriminate;
    destruct (String.compare b c); try discriminate;
    destruct (String.compare a c); try reflexivity;
    exfalso; apply H; congruence.
Qed.

#[local] Instance string_le_antisymm : AntiSymm eq string_le.
Proof. intros a b. apply String.leb_antisym. Qed.

(** Sorting forgets the order of a slice and nothing else. *)
Lemma sort_Strings_eq_iff (l1 l2 : list string) :
  sort_Strings l1 = sort_Strings l2 <-> Permutation l1 l2.
Proof.
  split; intros H.
  - rewrite <- (sort_Strings_Permutation l1), H.
    apply sort_Strings_Permutation.
  - apply (Sorted_unique string_le); try apply sort_Strings_Sorted.
    now rewrite !sort_Strings_Permutation.
Qed.

(** The comparator of section 4.3 decides equality of the two slices as
    multisets. *)
Lemma equalSets_spec_Permutation (l1 l2 : list string) :
  equalSets_spec l1 l2 = true <-> Permutation l1 l2.
Proof.
  unfold equalSets_spec.
  rewrite andb_true_iff, Nat.eqb_eq, bool_decide_eq_true, sort_Strings_eq_iff.
  split; [tauto|]. intros H. split; [now apply Permutation_length | exact H].
Qed.
(** ** [equalUnsorted] *)

Lemma range_compare_make (n i m : nat) :
  i + n <= m ->
  range_compare (make_strings n) i (make_strings m) = Returns true.
Proof.
  unfold make_strings. revert i.
  induction n as [|n IH]; intros i Hi; simpl; [reflexivity|].
  rewrite lookup_replicate_2 by lia. simpl.
  apply IH. lia.
Qed.

(** What a call of [equalUnsorted] comes to: the lengths decide the result,
    and on equal lengths both argument slices are left sorted. *)
Lemma equalUnsorted_unfold (s1 s2 : list string) :
  equalUnsorted s1 s2 =
  if Nat.eqb (length s1) (length s2)
  then (Returns true, (sort_Strings s1, sort_Strings s2))
  else (Returns false, (s1, s2)).
Proof.
  unfold equalUnsorted.
  destruct (Nat.eqb (length s1) (length s2)) eqn:E; simpl; [|reflexivity].
  apply Nat.eqb_eq in E.
  rewrite range_compare_make by lia. reflexivity.
Qed.

(** The index expression of the loop is always in range. *)
Lemma equalUnsorted_returns (s1 s2 : list string) :
  exists b, fst (equalUnsorted s1 s2) = Returns b.
Proof.
  rewrite equalUnsorted_unfold.
  destruct (Nat.eqb (length s1) (length s2)); simpl; eauto.
Qed.

(** On a length mismatch the argument slices are left as they were. *)
Lemma equalUnsorted_mismatch_frame (s1 s2 : list string) :
  length s1 <> length s2 -> snd (equalUnsorted s1 s2) = (s1, s2).
Proof.
  intros H. rewrite equalUnsorted_unfold.
  apply Nat.eqb_neq in H. now rewrite H.
Qed.


Example equalUnsorted_swapped :
  equalUnsorted ["a.com"; "b.com"] ["b.com"; "a.com"]
  = (Returns true, (["a.com"; "b.com"], ["a.com"; "b.com"])).
Proof. reflexivity. Qed.

Example equalUnsorted_shorter :
  equalUnsorted ["a.com"] ["a.com"; "b.com"]
  = (Returns false, (["a.com"], ["a.com"; "b.com"])).
Proof. reflexivity. Qed.

Example equalSets_spec_swapped :
  equalSets_spec ["a.com"; "b.com"] ["b.com"; "a.com"] = true.
Proof. vm_compute. reflexivity. Qed.

(** C1, at the input [["a.com"]], [["b.com"]]: [equalUnsorted] answers true
    for two slices of equal length that differ once sorted, where the
    comparator of section 4.3 answers false. *)
Theorem equalUnsorted_accepts_other_names :
  fst (equalUnsorted ["a.com"] ["b.com"]) = Returns true
  /\ equalSets_spec ["a.com"] ["b.com"] = false.
Proof. split; vm_compute; reflexivity. Qed.

(** C2: on two slices of equal length [equalUnsorted] returns true, whatever
    the slices hold. *)
Theorem equalUnsorted_equal_length (s1 s2 : list string) :
  length s1 = length s2 -> fst (equalUnsorted s1 s2) = Returns true.
Proof.
  intros H. rewrite equalUnsorted_unfold.
  apply Nat.eqb_eq in H. now rewrite H.
Qed.

(** C5, at the input [["b.com"; "a.com"]], [["a.com"; "b.com"]]: when the
    call returns, the first argument slice holds its elements in another
    order than before the call. *)
Theorem equalUnsorted_reorders_argument :
  snd (equalUnsorted ["b.com"; "a.com"] ["a.com"; "b.com"])
  = (["a.com"; "b.com"], ["a.com"; "b.com"])
  /\ fst (snd (equalUnsorted ["b.com"; "a.com"] ["a.com"; "b.com"]))
     <> ["b.com"; "a.com"].
Proof. split; vm_compute; [reflexivity | discriminate]. Qed.

(** C10: [equalUnsorted] answers the same in both argument orders. *)
Theorem equalUnsorted_symmetric (s1 s2 : list string) :
  fst (equalUnsorted s1 s2) = fst (equalUnsorted s2 s1).
Proof.
  rewrite !equalUnsorted_unfold, (Nat.eqb_sym (length s2)).
  now destruct (Nat.eqb (length s1) (length s2)).
Qed.

(** ** [issue] *)

Ltac run_issue :=
  cbv beta iota zeta delta [issue returning bind perform ret].

Lemma issuance_attempted_app (j d : journal) :
  issuance_attempted (j ++ d) = issuance_attempted j || issuance_attempted d.
Proof. apply existsb_app. Qed.

Lemma store_written_app (j d : journal) :
  store_written (j ++ d) = store_written j || store_written d.
Proof. apply existsb_app. Qed.

Lemma store_read_app (j d : journal) :
  store_read (j ++ d) = store_read j || store_read d.
Proof. apply existsb_app. Qed.

(** [issue] adds its effects to the journal and does not look at it. *)
Lemma issue_frame (ctx : Context) (issuer : Interface) (crt : Certificate)
    (j : journal) :
  issue ctx issuer crt j
  = (fst (issue ctx issuer crt []), j ++ snd (issue ctx issuer crt [])).
Proof.
  run_issue. destruct (Issue issuer crt) as [[cert key]|err]; simpl.
  - destruct (Client_Secrets_Create _ _ _); simpl;
      now rewrite <- app_assoc.
  - reflexivity.
Qed.

(** [issue] returns, and its first effect is the call of the backend. *)
Lemma issue_returns (ctx : Context) (issuer : Interface) (crt : Certificate) :
  exists err d, issue ctx issuer crt [] = (Returns err, CallIssue crt :: d).
Proof.
  run_issue. destruct (Issue issuer crt) as [[cert key]|err]; simpl.
  - destruct (Client_Secrets_Create _ _ _); simpl; eauto.
  - eauto.
Qed.

Lemma returning_issue_at (ctx : Context) (issuer : Interface)
    (crt crt' : Certificate) (j : journal) :
  returning crt' (issue ctx issuer crt) j
  = (match fst (issue ctx issuer crt []) with
     | Returns err => Returns (err, crt')
     | Panics msg => Panics msg
     end,
     j ++ snd (issue ctx issuer crt [])).
Proof.
  unfold returning, bind, ret. rewrite issue_frame.
  now destruct (fst (issue ctx issuer crt [])).
Qed.

Lemma returning_issue (ctx : Context) (issuer : Interface)
    (crt crt' : Certificate) (j : journal) :
  exists err d,
    issue ctx issuer crt [] = (Returns err, CallIssue crt :: d)
    /\ returning crt' (issue ctx issuer crt) j
       = (Returns (err, crt'), j ++ CallIssue crt :: d).
Proof.
  destruct (issue_returns ctx issuer crt) as (err & d & E).
  exists err, d. split; [exact E|].
  unfold returning, bind, ret. rewrite issue_frame, E. reflexivity.
Qed.

(** C6: when the backend's [Issue] fails, [issue] returns the error
    "error issuing certificate: ..." and the call of the backend is its only
    effect: nothing is written to the store. *)
Theorem issue_backend_failure (ctx : Context) (issuer : Interface)
    (crt : Certificate) (err : error) (j : journal) :
  Issue issuer crt = Err err ->
  issue ctx issuer crt j
  = (Returns (Some (Errorf ("error issuing certificate: " ++ Error err))),
     j ++ [CallIssue crt])
  /\ store_written (snd (issue ctx issuer crt j)) = store_written j.
Proof.
  intros H. run_issue. rewrite H. simpl. split; [reflexivity|].
  rewrite store_written_app. simpl. now rewrite orb_false_r.
Qed.

(** C4, as the code has it: when the create fails, with [AlreadyExists] as
    with any other error, [issue] returns the error
    "error saving certificate: ..." to its caller. *)
Theorem issue_create_failure (ctx : Context) (issuer : Interface)
    (crt : Certificate) (cert key : bytes) (err : error) (j : journal) :
  Issue issuer crt = Ok (cert, key) ->
  Client_Secrets_Create ctx (Namespace (crt_ObjectMeta crt))
    (new_Secret crt cert key) = Err err ->
  issue ctx issuer crt j
  = (Returns (Some (Errorf ("error saving certificate: " ++ Error err))),
     j ++ [CallIssue crt;
           SecretsCreate (Namespace (crt_ObjectMeta crt))
             (new_Secret crt cert key)]).
Proof.
  intros HI HC. run_issue. rewrite HI. simpl. rewrite HC. simpl.
  now rewrite <- app_assoc.
Qed.

(** A successful create ends [issue] without an error. *)
Lemma issue_success (ctx : Context) (issuer : Interface)
    (crt : Certificate) (cert key : bytes) (created : Secret) (j : journal) :
  Issue issuer crt = Ok (cert, key) ->
  Client_Secrets_Create ctx (Namespace (crt_ObjectMeta crt))
    (new_Secret crt cert key) = Ok created ->
  issue ctx issuer crt j
  = (Returns None,
     j ++ [CallIssue crt;
           SecretsCreate (Namespace (crt_ObjectMeta crt))
             (new_Secret crt cert key)]).
Proof.
  intros HI HC. run_issue. rewrite HI. simpl. rewrite HC. simpl.
  now rewrite <- app_assoc.
Qed.

(** ** [sync] *)

Ltac run_sync :=
  cbv beta iota zeta delta [sync bind perform ret pass_effects stored
                            effects_up_to_read].

Ltac pass_step_zero H :=
  let issuerObj := fresh "issuerObj" in
  let H1 := fresh "Hget" in
  let H2 := fresh "Hready" in
  let H3 := fresh "Hfor" in
  let H4 := fresh "Hprepare" in
  destruct H as (issuerObj & H1 & H2 & H3 & H4);
  run_sync; rewrite ?H1; cbv beta iota; rewrite ?H2;
  cbv beta iota delta [negb]; rewrite ?H3; cbv beta iota; rewrite ?H4;
  cbv beta iota.

Lemma returning_issue_attempts (ctx : Context) (issuer : Interface)
    (crt crt' : Certificate) (j : journal) :
  issuance_attempted (snd (returning crt' (issue ctx issuer crt) j)) = true.
Proof.
  destruct (returning_issue ctx issuer crt crt' j) as (err & d & _ & E).
  rewrite E. simpl. rewrite issuance_attempted_app. simpl.
  apply orb_true_r.
Qed.

(** C9: when the resolved issuer is not ready, the pass returns the error
    "issuer ... not ready"; the lookup of the issuer is its only effect, so
    the store is neither read nor written. *)
Theorem sync_issuer_not_ready (ctx : Context) (crt : Certificate)
    (issuerObj : Issuer) (j : journal) :
  Issuers_Lister_Get ctx (Namespace (crt_ObjectMeta crt))
    (SpecIssuer (Spec crt)) = Ok issuerObj ->
  Ready (Status issuerObj) = false ->
  sync ctx crt j
  = (Returns
       (Some (Errorf ("issuer '" ++ Namespace (iss_ObjectMeta issuerObj)
                      ++ "/" ++ Name (iss_ObjectMeta issuerObj)
                      ++ "' for certificate '"
                      ++ Name (crt_ObjectMeta crt) ++ "' not ready")), crt),
     j ++ [IssuersGet (Namespace (crt_ObjectMeta crt))
             (SpecIssuer (Spec crt))])
  /\ store_read (pass_effects ctx crt) = false
  /\ store_written (pass_effects ctx crt) = false.
Proof.
  intros Hget Hready. run_sync. rewrite Hget. cbv beta iota.
  rewrite Hready. simpl. auto.
Qed.

(** C8: once the pass reads the store, a read failure other than not-found
    is returned as it is, with no issuance; a not-found failure sends the
    pass to [issue], whose error (or none) it returns. *)
Theorem sync_store_read_failure (ctx : Context) (crt : Certificate)
    (i : Interface) (err : error) (j : journal) :
  step_zero_passes ctx crt i ->
  stored ctx crt = Err err ->
  (IsNotFound err = false ->
   sync ctx crt j = (Returns (Some err, crt), j ++ effects_up_to_read crt)
   /\ issuance_attempted (pass_effects ctx crt) = false)
  /\ (IsNotFound err = true ->
      issuance_attempted (pass_effects ctx crt) = true
      /\ exists err' d,
          issue ctx i crt [] = (Returns err', CallIssue crt :: d)
          /\ sync ctx crt j
             = (Returns (err', crt),
                j ++ effects_up_to_read crt ++ CallIssue crt :: d)).
Proof.
  intros Hzero Hread. unfold stored in Hread.
  split; intros Hnf; pass_step_zero Hzero; rewrite Hread; cbv beta iota;
    rewrite Hnf; cbv beta iota.
  - rewrite <- !app_assoc. simpl. auto.
  - split; [apply returning_issue_attempts|].
    destruct (issue_returns ctx i crt) as (err' & d & E).
    exists err', d. split; [exact E|].
    rewrite returning_issue_at, E. simpl.
    rewrite <- !app_assoc. reflexivity.
Qed.


(** C7: once the pass has read a stored credential with both well-known
    fields whose certificate field holds no PEM block, it logs the decode
    failure and goes to [issue]; what the pass returns is what [issue]
    returns. *)
Theorem sync_malformed_certificate_pem (ctx : Context) (crt : Certificate)
    (i : Interface) (secret : Secret) (certBytes keyBytes : bytes)
    (j : journal) :
  step_zero_passes ctx crt i ->
  stored ctx crt = Ok secret ->
  Data secret !! TLSCertKey = Some certBytes ->
  Data secret !! TLSPrivateKeyKey = Some keyBytes ->
  pem_Decode certBytes = None ->
  issuance_attempted (pass_effects ctx crt) = true
  /\ exists err d,
      issue ctx i crt [] = (Returns err, CallIssue crt :: d)
      /\ sync ctx crt j
         = (Returns (err, crt),
            j ++ effects_up_to_read crt
              ++ LoggerPrintf ("error decoding cert PEM block in '"
                               ++ SecretName (Spec crt) ++ "'")
              :: CallIssue crt :: d).
Proof.
  intros Hzero Hread Hcert Hkey Hpem. unfold stored in Hread.
  pass_step_zero Hzero. rewrite Hread. unfold map_index.
  rewrite Hcert, Hkey. cbv beta iota delta [negb orb]. rewrite Hpem.
  split; [apply returning_issue_attempts|].
  destruct (issue_returns ctx i crt) as (err & d & E).
  exists err, d. split; [exact E|].
  rewrite returning_issue_at, E. simpl.
  rewrite <- !app_assoc. reflexivity.
Qed.

Lemma valid_sound (ctx : Context) (crt : Certificate) :
  valid ctx crt -> sound_with_as_many_names ctx crt.
Proof.
  intros (secret & cert & key & Hs & Hp & Hv & He).
  exists secret, cert, key. repeat split; try assumption.
  unfold equalSets_spec in He.
  apply andb_true_iff in He as [He _]. now apply Nat.eqb_eq.
Qed.

Ltac refute_sound :=
  let H := fresh in
  intros (? & ? & ? & H & (? & ? & ? & ? & ? & ? & ? & ? & ? & ?) & ? & ?);
  unfold stored in H; congruence.

(** The decision of the pass once step zero is behind it and the store
    answers with a credential or with not-found. *)
Lemma sync_decision (ctx : Context) (crt : Certificate) (i : Interface) :
  step_zero_passes ctx crt i ->
  (forall err, stored ctx crt = Err err -> IsNotFound err = true) ->
  (sound_with_as_many_names ctx crt
   /\ issuance_attempted (pass_effects ctx crt) = false)
  \/ (~ sound_with_as_many_names ctx crt
      /\ issuance_attempted (pass_effects ctx crt) = true).
Proof.
  intros Hzero Hread. unfold stored in Hread.
  pass_step_zero Hzero.
  destruct (Secrets_Lister_Get ctx _ _) as [secret|err] eqn:Hs.
  2:{ rewrite (Hread err eq_refl). right.
      split; [refute_sound | apply returning_issue_attempts]. }
  unfold map_index.
  destruct (Data secret !! TLSCertKey) as [certBytes|] eqn:Hc;
    destruct (Data secret !! TLSPrivateKeyKey) as [keyBytes|] eqn:Hk;
    cbv beta iota delta [negb orb];
    try (right; split; [refute_sound | apply returning_issue_attempts]).
  destruct (pem_Decode certBytes) as [block|] eqn:Hcb;
    [|right; split; [refute_sound | apply returning_issue_attempts]].
  destruct (x509_ParseCertificate (Bytes block)) as [cert|e] eqn:Hcp;
    [|right; split; [refute_sound | apply returning_issue_attempts]].
  destruct (pem_Decode keyBytes) as [block'|] eqn:Hkb;
    [|right; split; [refute_sound | apply returning_issue_attempts]].
  destruct (x509_ParsePKCS1PrivateKey (Bytes block')) as [key|e] eqn:Hkp;
    [|right; split; [refute_sound | apply returning_issue_attempts]].
  destruct (Validate key) as [e|] eqn:Hv;
    [right; split; [refute_sound | apply returning_issue_attempts]|].
  rewrite equalUnsorted_unfold.
  destruct (Nat.eqb (length (Domains (Spec crt))) (length (DNSNames cert)))
    eqn:Hlen; cbv beta iota delta [negb].
  - left. split; [|reflexivity].
    apply Nat.eqb_eq in Hlen.
    exists secret, cert, key. repeat split; try assumption.
    exists certBytes, keyBytes, block, block'. repeat split; assumption.
  - right. split; [|apply returning_issue_attempts].
    apply Nat.eqb_neq in Hlen.
    intros (? & cert' & ? & H & (? & ? & ? & ? & ? & ? & ? & ? & ? & ?) & ? & ?).
    unfold stored in H. apply Hlen.
    replace cert with cert' by congruence. assumption.
Qed.

(** C3, as the code has it by design: for a pass that has step zero behind
    it and whose store read answers with a credential or with not-found,
    a valid credential means no issuance, and issuance is attempted when
    the credential is absent and whenever it is not the case that the
    credential is present, parses, has a valid key and carries as many
    names as the request has domains. *)
Theorem sync_issues_when_needed (ctx : Context) (crt : Certificate)
    (i : Interface) :
  step_zero_passes ctx crt i ->
  (forall err, stored ctx crt = Err err -> IsNotFound err = true) ->
  (valid ctx crt -> issuance_attempted (pass_effects ctx crt) = false)
  /\ (absent ctx crt -> issuance_attempted (pass_effects ctx crt) = true)
  /\ (~ sound_with_as_many_names ctx crt ->
      issuance_attempted (pass_effects ctx crt) = true).
Proof.
  intros Hzero Hread.
  destruct (sync_decision ctx crt i Hzero Hread) as [[Hs Ha]|[Hs Ha]].
  - split; [intros _; exact Ha|]. split; [|tauto].
    intros (err & Habs & _).
    destruct Hs as (secret & _ & _ & Hst & _). congruence.
  - split; [|tauto]. intros Hv. apply valid_sound in Hv. tauto.
Qed.


(** ** The pass as a whole *)





(** * Further properties *)

(** ** [equalUnsorted] *)


(** X1: [equalUnsorted] never panics, and the boolean it returns is the
    outcome of comparing the two lengths. *)
Theorem equalUnsorted_result (s1 s2 : list string) :
  fst (equalUnsorted s1 s2) = Returns (Nat.eqb (length s1) (length s2)).
Proof.
  rewrite equalUnsorted_unfold.
  now destruct (Nat.eqb (length s1) (length s2)).
Qed.





(** ** [issue] *)

(** The effects of [issue]: the call of the backend, then a create when the
    backend answered. *)
Lemma issue_effects (ctx : Context) (issuer : Interface) (crt : Certificate) :
  snd (issue ctx issuer crt [])
  = CallIssue crt
    :: match Issue issuer crt with
       | Ok (cert, key) =>
           [SecretsCreate (Namespace (crt_ObjectMeta crt))
              (new_Secret crt cert key)]
       | Err _ => []
       end.
Proof.
  run_issue. destruct (Issue issuer crt) as [[cert key]|err]; simpl.
  - now destruct (Client_Secrets_Create _ _ _).
  - reflexivity.
Qed.

(** X5: [issue] returns no error exactly when the backend issued a pair and
    the create of the secret made from it succeeded. *)
Theorem issue_succeeds_iff (ctx : Context) (issuer : Interface)
    (crt : Certificate) (j : journal) :
  fst (issue ctx issuer crt j) = Returns None
  <-> exists cert key created,
      Issue issuer crt = Ok (cert, key)
      /\ Client_Secrets_Create ctx (Namespace (crt_ObjectMeta crt))
           (new_Secret crt cert key) = Ok created.
Proof.
  run_issue. destruct (Issue issuer crt) as [[cert key]|err] eqn:HI; simpl.
  - destruct (Client_Secrets_Create _ _ _) as [created|err] eqn:HC; simpl.
    + split; [intros _; eauto|reflexivity].
    + split; [discriminate|].
      intros (cert' & key' & created & H1 & H2).
      inversion H1; subst. congruence.
  - split; [discriminate|]. intros (? & ? & ? & H & _). discriminate H.
Qed.

(** X6: [issue] calls the backend exactly once, never reads the store and
    writes to it at most once; what it writes is the secret made from the
    pair the backend returned, in the namespace of the request. *)
Theorem issue_writes_what_was_issued (ctx : Context) (issuer : Interface)
    (crt : Certificate) :
  times is_issue_call (snd (issue ctx issuer crt [])) = 1
  /\ times is_store_write (snd (issue ctx issuer crt [])) <= 1
  /\ store_read (snd (issue ctx issuer crt [])) = false
  /\ forall ns secret,
      In (SecretsCreate ns secret) (snd (issue ctx issuer crt [])) ->
      ns = Namespace (crt_ObjectMeta crt)
      /\ exists cert key,
          Issue issuer crt = Ok (cert, key)
          /\ secret = new_Secret crt cert key.
Proof.
  rewrite issue_effects.
  destruct (Issue issuer crt) as [[cert key]|err]; unfold times; simpl.
  - repeat split; try lia.
    + destruct H as [H|[H|[]]]; congruence.
    + destruct H as [H|[H|[]]]; [discriminate H|].
      exists cert, key. split; congruence.
  - repeat split; try lia; destruct H as [H|[]]; discriminate H.
Qed.



(** ** [sync]: the hard errors of step zero *)

(** X8: when the lookup of the issuer fails, for whatever reason, the pass
    returns "issuer ... does not exist"; the lookup is its only effect. *)
Theorem sync_issuer_not_found (ctx : Context) (crt : Certificate)
    (err : error) (j : journal) :
  Issuers_Lister_Get ctx (Namespace (crt_ObjectMeta crt))
    (SpecIssuer (Spec crt)) = Err err ->
  sync ctx crt j
  = (Returns
       (Some (Errorf ("issuer '" ++ SpecIssuer (Spec crt)
                      ++ "' for certificate '"
                      ++ Name (crt_ObjectMeta crt)
                      ++ "' does not exist")), crt),
     j ++ [IssuersGet (Namespace (crt_ObjectMeta crt))
             (SpecIssuer (Spec crt))]).
Proof. intros Hget. run_sync. now rewrite Hget. Qed.

(** X9: when no implementation is found for a ready issuer, the pass
    returns "error getting issuer implementation ..." with the reason;
    [Prepare] is not called and the store is not read. *)
Theorem sync_no_implementation (ctx : Context) (crt : Certificate)
    (issuerObj : Issuer) (err : error) (j : journal) :
  Issuers_Lister_Get ctx (Namespace (crt_ObjectMeta crt))
    (SpecIssuer (Spec crt)) = Ok issuerObj ->
  Ready (Status issuerObj) = true ->
  IssuerFor ctx issuerObj = Err err ->
  sync ctx crt j
  = (Returns
       (Some (Errorf ("error getting issuer implementation for issuer '"
                      ++ Name (iss_ObjectMeta issuerObj) ++ "': "
                      ++ Error err)), crt),
     j ++ [IssuersGet (Namespace (crt_ObjectMeta crt))
             (SpecIssuer (Spec crt))]).
Proof.
  intros Hget Hready Hfor. run_sync. rewrite Hget. cbv beta iota.
  rewrite Hready. cbv beta iota delta [negb]. now rewrite Hfor.
Qed.

(** X10: when [Prepare] fails, the pass returns the error of [Prepare] as
    it is; the store is neither read nor written and [Issue] is not
    called. *)
Theorem sync_prepare_error (ctx : Context) (crt : Certificate)
    (issuerObj : Issuer) (i : Interface) (err : error) (j : journal) :
  Issuers_Lister_Get ctx (Namespace (crt_ObjectMeta crt))
    (SpecIssuer (Spec crt)) = Ok issuerObj ->
  Ready (Status issuerObj) = true ->
  IssuerFor ctx issuerObj = Ok i ->
  Prepare i crt = Some err ->
  sync ctx crt j
  = (Returns (Some err, crt),
     j ++ [IssuersGet (Namespace (crt_ObjectMeta crt))
             (SpecIssuer (Spec crt)); CallPrepare crt]).
Proof.
  intros Hget Hready Hfor Hprep. run_sync. rewrite Hget. cbv beta iota.
  rewrite Hready. cbv beta iota delta [negb]. rewrite Hfor. cbv beta iota.
  rewrite Hprep. now rewrite <- app_assoc.
Qed.

(** ** [sync]: the ways to [issue] *)

Ltac into_issue ctx i crt :=
  let err' := fresh "err'" in
  let d := fresh "d" in
  let E := fresh "E" in
  destruct (issue_returns ctx i crt) as (err' & d & E);
  exists err', d; split; [exact E|];
  rewrite returning_issue_at, E; simpl;
  rewrite <- ?app_assoc; reflexivity.

(** X11: a stored credential that lacks one of the two well-known fields
    sends the pass to [issue] without a log line, whatever the other field
    holds. *)
Theorem sync_incomplete_credential (ctx : Context) (crt : Certificate)
    (i : Interface) (secret : Secret) :
  step_zero_passes ctx crt i ->
  stored ctx crt = Ok secret ->
  Data secret !! TLSCertKey = None \/ Data secret !! TLSPrivateKeyKey = None ->
  goes_to_issue ctx crt i [].
Proof.
  intros Hzero Hread Hmiss j. unfold stored in Hread.
  pass_step_zero Hzero. rewrite Hread. unfold map_index.
  destruct Hmiss as [H|H]; rewrite H.
  - destruct (Data secret !! TLSPrivateKeyKey);
      cbv beta iota delta [negb orb]; into_issue ctx i crt.
  - destruct (Data secret !! TLSCertKey);
      cbv beta iota delta [negb orb]; into_issue ctx i crt.
Qed.

(** X12: a certificate field whose PEM block does not parse as a
    certificate is logged and sends the pass to [issue]. *)
Theorem sync_certificate_parse_failure (ctx : Context) (crt : Certificate)
    (i : Interface) (secret : Secret) (certBytes keyBytes : bytes)
    (block : pem_Block) (err : error) :
  step_zero_passes ctx crt i ->
  stored ctx crt = Ok secret ->
  Data secret !! TLSCertKey = Some certBytes ->
  Data secret !! TLSPrivateKeyKey = Some keyBytes ->
  pem_Decode certBytes = Some block ->
  x509_ParseCertificate (Bytes block) = Err err ->
  goes_to_issue ctx crt i
    [LoggerPrintf ("error parsing TLS certificate in '"
                   ++ SecretName (Spec crt) ++ "': " ++ Error err)].
Proof.
  intros Hzero Hread Hcert Hkey Hpem Hparse j. unfold stored in Hread.
  pass_step_zero Hzero. rewrite Hread. unfold map_index.
  rewrite Hcert, Hkey. cbv beta iota delta [negb orb].
  rewrite Hpem, Hparse. into_issue ctx i crt.
Qed.

(** X13: with a certificate that parses, a private-key field that holds no
    PEM block is logged and sends the pass to [issue]. *)
Theorem sync_key_decode_failure (ctx : Context) (crt : Certificate)
    (i : Interface) (secret : Secret) (certBytes keyBytes : bytes)
    (block : pem_Block) (cert : x509_Certificate) :
  step_zero_passes ctx crt i ->
  stored ctx crt = Ok secret ->
  Data secret !! TLSCertKey = Some certBytes ->
  Data secret !! TLSPrivateKeyKey = Some keyBytes ->
  pem_Decode certBytes = Some block ->
  x509_ParseCertificate (Bytes block) = Ok cert ->
  pem_Decode keyBytes = None ->
  goes_to_issue ctx crt i
    [LoggerPrintf ("error decoding private key PEM block in '"
                   ++ SecretName (Spec crt) ++ "'")].
Proof.
  intros Hzero Hread Hcert Hkey Hpem Hparse Hkpem j. unfold stored in Hread.
  pass_step_zero Hzero. rewrite Hread. unfold map_index.
  rewrite Hcert, Hkey. cbv beta iota delta [negb orb].
  rewrite Hpem, Hparse, Hkpem. into_issue ctx i crt.
Qed.

(** X14: with a certificate that parses, a private key whose PEM block does
    not parse as a PKCS#1 key is logged and sends the pass to [issue]. *)
Theorem sync_key_parse_failure (ctx : Context) (crt : Certificate)
    (i : Interface) (secret : Secret) (certBytes keyBytes : bytes)
    (block block' : pem_Block) (cert : x509_Certificate) (err : error) :
  step_zero_passes ctx crt i ->
  stored ctx crt = Ok secret ->
  Data secret !! TLSCertKey = Some certBytes ->
  Data secret !! TLSPrivateKeyKey = Some keyBytes ->
  pem_Decode certBytes = Some block ->
  x509_ParseCertificate (Bytes block) = Ok cert ->
  pem_Decode keyBytes = Some block' ->
  x509_ParsePKCS1PrivateKey (Bytes block') = Err err ->
  goes_to_issue ctx crt i
    [LoggerPrintf ("error parsing private key in '"
                   ++ SecretName (Spec crt) ++ "': " ++ Error err)].
Proof.
  intros Hzero Hread Hcert Hkey Hpem Hparse Hkpem Hkparse j.
  unfold stored in Hread.
  pass_step_zero Hzero. rewrite Hread. unfold map_index.
  rewrite Hcert, Hkey. cbv beta iota delta [negb orb].
  rewrite Hpem, Hparse, Hkpem, Hkparse. into_issue ctx i crt.
Qed.

Ltac pass_parses Hread Hp :=
  let certBytes := fresh "certBytes" in
  let keyBytes := fresh "keyBytes" in
  let block := fresh "block" in
  let block' := fresh "block'" in
  let H1 := fresh "Hcert" in
  let H2 := fresh "Hkey" in
  let H3 := fresh "Hpem" in
  let H4 := fresh "Hparse" in
  let H5 := fresh "Hkpem" in
  let H6 := fresh "Hkparse" in
  destruct Hp as (certBytes & keyBytes & block & block'
                  & H1 & H2 & H3 & H4 & H5 & H6);
  rewrite Hread; unfold map_index; rewrite H1, H2;
  cbv beta iota delta [negb orb]; rewrite H3, H4, H5, H6.

(** X15: a credential that parses but whose private key fails validation is
    logged and sends the pass to [issue]. *)
Theorem sync_key_validation_failure (ctx : Context) (crt : Certificate)
    (i : Interface) (secret : Secret) (cert : x509_Certificate)
    (key : PrivateKey) (err : error) :
  step_zero_passes ctx crt i ->
  stored ctx crt = Ok secret ->
  parses secret cert key ->
  Validate key = Some err ->
  goes_to_issue ctx crt i
    [LoggerPrintf ("private key failed validation in '"
                   ++ SecretName (Spec crt) ++ "': " ++ Error err)].
Proof.
  intros Hzero Hread Hp Hv j. unfold stored in Hread.
  pass_step_zero Hzero. pass_parses Hread Hp. rewrite Hv.
  into_issue ctx i crt.
Qed.


Lemma Certificate_eta (crt : Certificate) :
  {| crt_ObjectMeta := crt_ObjectMeta crt;
     Spec := {| Domains := Domains (Spec crt);
                SecretName := SecretName (Spec crt);
                SpecIssuer := SpecIssuer (Spec crt) |} |} = crt.
Proof. now destruct crt as [meta []]. Qed.

(** X16: a credential that parses and validates but carries another number
    of names than the request has domains is logged and sends the pass to
    [issue], with the request as it was. *)
Theorem sync_domain_count_mismatch (ctx : Context) (crt : Certificate)
    (i : Interface) (secret : Secret) (cert : x509_Certificate)
    (key : PrivateKey) :
  step_zero_passes ctx crt i ->
  stored ctx crt = Ok secret ->
  parses secret cert key ->
  Validate key = None ->
  length (Domains (Spec crt)) <> length (DNSNames cert) ->
  goes_to_issue ctx crt i
    [LoggerPrintf
       "list of domains on certificate do not match domains in spec"].
Proof.
  intros Hzero Hread Hp Hv Hlen j. unfold stored in Hread.
  apply Nat.eqb_neq in Hlen.
  pass_step_zero Hzero. pass_parses Hread Hp. rewrite Hv.
  rewrite equalUnsorted_unfold, Hlen. cbv beta iota delta [negb].
  rewrite Certificate_eta. into_issue ctx i crt.
Qed.

(** X17: a credential that parses and validates and carries as many names
    as the request has domains ends the pass: no error, no log line, no
    call of the backend, no write; the request is handed back with its
    domains sorted. *)
Theorem sync_nothing_to_do (ctx : Context) (crt : Certificate)
    (i : Interface) (secret : Secret) (cert : x509_Certificate)
    (key : PrivateKey) (j : journal) :
  step_zero_passes ctx crt i ->
  stored ctx crt = Ok secret ->
  parses secret cert key ->
  Validate key = None ->
  length (Domains (Spec crt)) = length (DNSNames cert) ->
  sync ctx crt j
  = (Returns (None, sorted_request crt), j ++ effects_up_to_read crt).
Proof.
  intros Hzero Hread Hp Hv Hlen. unfold stored in Hread.
  apply Nat.eqb_eq in Hlen.
  pass_step_zero Hzero. pass_parses Hread Hp. rewrite Hv.
  rewrite equalUnsorted_unfold, Hlen. cbv beta iota delta [negb].
  rewrite <- !app_assoc. reflexivity.
Qed.

(** X18: with no stored credential, a backend that issues and a store that
    accepts the create, the pass returns no error after calling the backend
    once and creating, once, the secret made from the issued pair. *)
Theorem sync_first_issuance (ctx : Context) (crt : Certificate)
    (i : Interface) (err : error) (cert key : bytes) (created : Secret)
    (j : journal) :
  step_zero_passes ctx crt i ->
  stored ctx crt = Err err ->
  IsNotFound err = true ->
  Issue i crt = Ok (cert, key) ->
  Client_Secrets_Create ctx (Namespace (crt_ObjectMeta crt))
    (new_Secret crt cert key) = Ok created ->
  sync ctx crt j
  = (Returns (None, crt),
     j ++ effects_up_to_read crt
       ++ [CallIssue crt;
           SecretsCreate (Namespace (crt_ObjectMeta crt))
             (new_Secret crt cert key)]).
Proof.
  intros Hzero Hread Hnf HI HC. unfold stored in Hread.
  pass_step_zero Hzero. rewrite Hread. cbv beta iota. rewrite Hnf.
  rewrite returning_issue_at.
  rewrite (issue_success ctx i crt cert key created [] HI HC). simpl.
  rewrite <- !app_assoc. reflexivity.
Qed.


(** ** [sync]: every pass *)

Ltac leaf :=
  intros ?j;
  cbv beta iota zeta delta [sync bind perform ret map_index];
  repeat first
    [ progress cbv beta iota delta [negb orb]
    | match goal with H : _ = _ |- _ => rewrite H end ].

(** Every pass has one of the three shapes. *)
Lemma sync_shape (ctx : Context) (crt : Certificate) : pass_shape ctx crt.
Proof.
  destruct (Issuers_Lister_Get ctx (Namespace (crt_ObjectMeta crt))
              (SpecIssuer (Spec crt))) as [issuerObj|e] eqn:Hget.
  2:{ eapply StopsEarly; [left; reflexivity|]. leaf. reflexivity. }
  destruct (Ready (Status issuerObj)) eqn:Hready.
  2:{ eapply StopsEarly; [left; reflexivity|]. leaf. reflexivity. }
  destruct (IssuerFor ctx issuerObj) as [i|e] eqn:Hfor.
  2:{ eapply StopsEarly; [left; reflexivity|]. leaf. reflexivity. }
  destruct (Prepare i crt) as [e|] eqn:Hprep.
  1:{ eapply StopsEarly; [right; left; reflexivity|]. leaf.
      now rewrite <- app_assoc. }
  assert (Hzero : step_zero_passes ctx crt i) by (exists issuerObj; auto).
  destruct (Secrets_Lister_Get ctx (Namespace (crt_ObjectMeta crt))
              (SecretName (Spec crt))) as [secret|e] eqn:Hread.
  2:{ destruct (IsNotFound e) eqn:Hnf.
      - apply (Issues ctx crt i []); [exact Hzero | now left |].
        clear Hzero. leaf. into_issue ctx i crt.
      - eapply StopsEarly; [right; right; reflexivity|]. clear Hzero. leaf.
        now rewrite <- !app_assoc. }
  destruct (Data secret !! TLSCertKey) as [certBytes|] eqn:Hc.
  2:{ apply (Issues ctx crt i []); [exact Hzero | now left |].
      clear Hzero. leaf.
      destruct (Data secret !! TLSPrivateKeyKey);
        cbv beta iota delta [negb orb]; into_issue ctx i crt. }
  destruct (Data secret !! TLSPrivateKeyKey) as [keyBytes|] eqn:Hk.
  2:{ apply (Issues ctx crt i []); [exact Hzero | now left |].
      clear Hzero. leaf. into_issue ctx i crt. }
  destruct (pem_Decode certBytes) as [block|] eqn:Hpem.
  2:{ eapply (Issues ctx crt i); [exact Hzero | right; eauto |].
      clear Hzero. leaf. into_issue ctx i crt. }
  destruct (x509_ParseCertificate (Bytes block)) as [cert|e] eqn:Hparse.
  2:{ eapply (Issues ctx crt i); [exact Hzero | right; eauto |].
      clear Hzero. leaf. into_issue ctx i crt. }
  destruct (pem_Decode keyBytes) as [block'|] eqn:Hkpem.
  2:{ eapply (Issues ctx crt i); [exact Hzero | right; eauto |].
      clear Hzero. leaf. into_issue ctx i crt. }
  destruct (x509_ParsePKCS1PrivateKey (Bytes block')) as [key|e] eqn:Hkparse.
  2:{ eapply (Issues ctx crt i); [exact Hzero | right; eauto |].
      clear Hzero. leaf. into_issue ctx i crt. }
  destruct (Validate key) as [e|] eqn:Hv.
  1:{ eapply (Issues ctx crt i); [exact Hzero | right; eauto |].
      clear Hzero. leaf. into_issue ctx i crt. }
  destruct (Nat.eqb (length (Domains (Spec crt))) (length (DNSNames cert)))
    eqn:Hlen.
  - apply NoOp. clear Hzero. pose proof equalUnsorted_unfold as Hu.
    intros j. cbv beta iota zeta delta [sync bind perform ret map_index].
    rewrite Hget. cbv beta iota. rewrite Hready.
    cbv beta iota delta [negb]. rewrite Hfor. cbv beta iota.
    rewrite Hprep, Hread. cbv beta iota. rewrite Hc, Hk.
    cbv beta iota delta [negb orb].
    rewrite Hpem, Hparse, Hkpem, Hkparse, Hv, Hu, Hlen.
    cbv beta iota delta [negb]. now rewrite <- !app_assoc.
  - eapply (Issues ctx crt i); [exact Hzero | right; eauto |].
    clear Hzero. pose proof equalUnsorted_unfold as Hu.
    intros j. cbv beta iota zeta delta [sync bind perform ret map_index].
    rewrite Hget. cbv beta iota. rewrite Hready.
    cbv beta iota delta [negb]. rewrite Hfor. cbv beta iota.
    rewrite Hprep, Hread. cbv beta iota. rewrite Hc, Hk.
    cbv beta iota delta [negb orb].
    rewrite Hpem, Hparse, Hkpem, Hkparse, Hv, Hu, Hlen.
    cbv beta iota delta [negb]. rewrite Certificate_eta.
    into_issue ctx i crt.
Qed.


(** What follows the call of the backend in the effects of [issue]. *)
Lemma issue_tail (ctx : Context) (i : Interface) (crt : Certificate)
    (err : option error) (d : journal) :
  issue ctx i crt [] = (Returns err, CallIssue crt :: d) ->
  (d = [] /\ err <> None)
  \/ exists cert key,
      Issue i crt = Ok (cert, key)
      /\ d = [SecretsCreate (Namespace (crt_ObjectMeta crt))
                (new_Secret crt cert key)]
      /\ (err = None ->
          exists created,
            Client_Secrets_Create ctx (Namespace (crt_ObjectMeta crt))
              (new_Secret crt cert key) = Ok created).
Proof.
  revert err d. run_issue.
  destruct (Issue i crt) as [[cert key]|e]; simpl.
  - destruct (Client_Secrets_Create _ _ _) as [created|e] eqn:HC; simpl;
      intros err d H; inversion H; subst; right; exists cert, key;
      repeat split; eauto; discriminate.
  - intros err d H; inversion H; subst. left. split; [reflexivity|discriminate].
Qed.

Ltac shape_cases ctx crt :=
  let err := fresh "err" in
  let seen := fresh "seen" in
  let Hseen := fresh "Hseen" in
  let H := fresh "Hsync" in
  let i := fresh "i" in
  let logged := fresh "logged" in
  let Hzero := fresh "Hzero" in
  let Hl := fresh "Hlogged" in
  let msg := fresh "msg" in
  destruct (sync_shape ctx crt)
    as [err seen Hseen H | i logged Hzero Hl H | H];
  [ destruct Hseen as [->|[->| ->]]
  | destruct Hl as [->|[msg ->]]
  | ].

Ltac issue_tail_cases ctx i crt H j :=
  let err := fresh "err" in
  let d := fresh "d" in
  let E := fresh "E" in
  let Hs := fresh "Hs" in
  let Hne := fresh "Hne" in
  let cert := fresh "cert" in
  let key := fresh "key" in
  let HI := fresh "HI" in
  let Hok := fresh "Hok" in
  destruct (H j) as (err & d & E & Hs);
  destruct (issue_tail ctx i crt err d E)
    as [[-> Hne] | (cert & key & HI & -> & Hok)].

(** X19: a pass looks the issuer up once and then calls [Prepare], reads
    the store, calls [Issue] and creates a secret at most once each. *)
Theorem sync_effect_bounds (ctx : Context) (crt : Certificate) :
  times is_issuer_lookup (pass_effects ctx crt) = 1
  /\ times is_prepare_call (pass_effects ctx crt) <= 1
  /\ times is_store_read (pass_effects ctx crt) <= 1
  /\ times is_issue_call (pass_effects ctx crt) <= 1
  /\ times is_store_write (pass_effects ctx crt) <= 1.
Proof.
  unfold pass_effects.
  shape_cases ctx crt; try issue_tail_cases ctx i crt Hsync (@nil effect);
    try rewrite Hs; try rewrite (Hsync []);
    unfold times, effects_up_to_read; simpl; lia.
Qed.


(** X21: a pass that went to [issue] and returns no error has created the
    secret made from the pair the backend issued, and the store accepted
    it. *)
Theorem sync_success_after_issuance (ctx : Context) (crt crt' : Certificate) :
  fst (sync ctx crt []) = Returns (None, crt') ->
  issuance_attempted (pass_effects ctx crt) = true ->
  exists i cert key created,
    step_zero_passes ctx crt i
    /\ Issue i crt = Ok (cert, key)
    /\ Client_Secrets_Create ctx (Namespace (crt_ObjectMeta crt))
         (new_Secret crt cert key) = Ok created
    /\ In (SecretsCreate (Namespace (crt_ObjectMeta crt))
             (new_Secret crt cert key)) (pass_effects ctx crt).
Proof.
  unfold pass_effects.
  shape_cases ctx crt; try issue_tail_cases ctx i crt Hsync (@nil effect);
    try rewrite Hs; try rewrite (Hsync []);
    unfold effects_up_to_read; simpl; intros Hret Hatt;
    try discriminate; try congruence.
  all: destruct Hok as [created HC]; [congruence|].
  all: exists i, cert, key, created; repeat split; auto.
  all: rewrite ?in_app_iff; simpl; auto 10.
Qed.

(** X23: a pass that returns an error or goes to [issue] hands the request
    back as it got it; only a pass that finds nothing to do rearranges the
    domains of the request. *)
Theorem sync_request_untouched (ctx : Context) (crt crt' : Certificate)
    (err : option error) :
  fst (sync ctx crt []) = Returns (err, crt') ->
  err <> None \/ issuance_attempted (pass_effects ctx crt) = true ->
  crt' = crt.
Proof.
  unfold pass_effects.
  shape_cases ctx crt; try issue_tail_cases ctx i crt Hsync (@nil effect);
    try rewrite Hs; try rewrite (Hsync []);
    unfold effects_up_to_read; simpl; intros Hret Hor;
    try (inversion Hret; subst; reflexivity).
  inversion Hret; subst. destruct Hor as [H|H]; [congruence|discriminate H].
Qed.

(** X24: whenever a pass calls the backend, it does so through [issue] for
    the resolved implementation and the request as it got it, and what the
    pass returns is what [issue] returns. *)
Theorem sync_issuance_result (ctx : Context) (crt : Certificate) :
  issuance_attempted (pass_effects ctx crt) = true ->
  exists i err,
    step_zero_passes ctx crt i
    /\ fst (issue ctx i crt []) = Returns err
    /\ forall j, fst (sync ctx crt j) = Returns (err, crt).
Proof.
  unfold pass_effects.
  shape_cases ctx crt;
    try (rewrite (Hsync []); unfold effects_up_to_read; simpl; discriminate).
  all: intros _; destruct (Hsync []) as (err & d & E & _).
  all: exists i, err; split; [exact Hzero|]; split; [now rewrite E|].
  all: intros j; destruct (Hsync j) as (err' & d' & E' & ->).
  all: simpl; congruence.
Qed.

End Reconcile.

(** * The pass on the small cluster *)

Local Abbreviation demo_sync i :=
  (sync bytes demo_pem_Decode demo_ParseCertificate
     demo_ParsePKCS1PrivateKey demo_Validate (demo_IssuerFor i)).
Local Abbreviation demo_effects i :=
  (pass_effects bytes demo_pem_Decode demo_ParseCertificate
     demo_ParsePKCS1PrivateKey demo_Validate (demo_IssuerFor i)).
Local Abbreviation demo_valid :=
  (valid bytes demo_pem_Decode demo_ParseCertificate
     demo_ParsePKCS1PrivateKey demo_Validate).
Local Abbreviation demo_sound :=
  (sound_with_as_many_names bytes demo_pem_Decode demo_ParseCertificate
     demo_ParsePKCS1PrivateKey demo_Validate).
Local Abbreviation demo_statement i :=
  (issues_iff_absent_or_invalid bytes demo_pem_Decode demo_ParseCertificate
     demo_ParsePKCS1PrivateKey demo_Validate (demo_IssuerFor i)).
Local Abbreviation stores := (fun secret : Secret => Ok secret).

(** No stored credential: the backend is called once and its answer is
    created in the store under the requested name. *)
Example sync_missing_credential :
  demo_sync working_backend (cluster true (Err not_found) stores) site []
  = (Returns (None, site),
     [IssuersGet "default" "prod-ca"; CallPrepare site;
      SecretsGet "default" "site-tls"; CallIssue site;
      SecretsCreate "default"
        (tls_secret (list_byte_of_string "example.com")
           (list_byte_of_string "key"))]).
Proof. reflexivity. Qed.

(** A valid stored credential: the pass ends after reading it. *)
Example sync_valid_credential :
  demo_sync working_backend
    (cluster true
       (Ok (tls_secret (list_byte_of_string "example.com")
              (list_byte_of_string "key"))) stores) site []
  = (Returns (None, site),
     [IssuersGet "default" "prod-ca"; CallPrepare site;
      SecretsGet "default" "site-tls"]).
Proof. reflexivity. Qed.

(** A stored certificate for another name, as many names as requested: the
    pass ends without issuing. *)
Example sync_other_name_same_count :
  demo_sync working_backend
    (cluster true
       (Ok (tls_secret (list_byte_of_string "other.org")
              (list_byte_of_string "key"))) stores) site []
  = (Returns (None, site),
     [IssuersGet "default" "prod-ca"; CallPrepare site;
      SecretsGet "default" "site-tls"]).
Proof. reflexivity. Qed.

(** [Prepare] fails: the pass stops before it reads the store. *)
Example sync_prepare_failure :
  demo_sync (backend (Some (errorString "no account")) (Ok fresh_pair))
    (cluster true (Err not_found) stores) site []
  = (Returns (Some (errorString "no account"), site),
     [IssuersGet "default" "prod-ca"; CallPrepare site]).
Proof. reflexivity. Qed.

(** ** The general statements at work *)

Local Abbreviation good_secret :=
  (tls_secret (list_byte_of_string "example.com") (list_byte_of_string "key")).
Local Abbreviation failing_backend :=
  (backend None (Err (errorString "acme: rate limited"))).

Lemma equalUnsorted_equal_length_witness :
  length ["a.com"] = length ["b.com"]
  /\ fst (equalUnsorted ["a.com"] ["b.com"]) = Returns true.
Proof.
  split; [reflexivity|].
  apply (equalUnsorted_equal_length ["a.com"] ["b.com"]). reflexivity.
Defined.

Lemma issue_backend_failure_witness :
  Issue failing_backend site = Err (errorString "acme: rate limited")
  /\ issue (cluster true (Err not_found) stores) failing_backend site []
     = (Returns (Some (Errorf "error issuing certificate: acme: rate limited")),
        [CallIssue site])
  /\ store_written
       (snd (issue (cluster true (Err not_found) stores) failing_backend
               site []))
     = store_written [].
Proof.
  split; [reflexivity|].
  apply (issue_backend_failure (cluster true (Err not_found) stores)
           failing_backend site (errorString "acme: rate limited") []).
  reflexivity.
Defined.

Lemma issue_create_failure_witness :
  Issue working_backend site = Ok fresh_pair
  /\ Client_Secrets_Create
       (cluster true (Err not_found) (fun _ => Err already_exists))
       "default" (new_Secret site (fst fresh_pair) (snd fresh_pair))
     = Err already_exists
  /\ issue (cluster true (Err not_found) (fun _ => Err already_exists))
       working_backend site []
     = (Returns
          (Some (Errorf ("error saving certificate: "
                         ++ Error already_exists))),
        [] ++ [CallIssue site;
               SecretsCreate (Namespace (crt_ObjectMeta site))
                 (new_Secret site (fst fresh_pair) (snd fresh_pair))]).
Proof.
  split; [reflexivity|]. split; [reflexivity|].
  apply (issue_create_failure
           (cluster true (Err not_found) (fun _ => Err already_exists))
           working_backend site (fst fresh_pair) (snd fresh_pair)
           already_exists []); reflexivity.
Defined.

(** C4 at a duplicate create: the store answers [AlreadyExists] and [issue]
    returns an error, so the duplicate is not taken as success. *)
Lemma AlreadyExists_is_reported :
  ~ AlreadyExists_is_benign
      (cluster true (Err not_found) (fun _ => Err already_exists))
      working_backend site.
Proof.
  intros H.
  specialize (H (fst fresh_pair) (snd fresh_pair) already_exists
                eq_refl eq_refl eq_refl []).
  vm_compute in H. discriminate H.
Qed.

Lemma sync_issuer_not_ready_witness :
  Issuers_Lister_Get (cluster false (Ok good_secret) stores)
    (Namespace (crt_ObjectMeta site)) (SpecIssuer (Spec site))
  = Ok (prod_ca false)
  /\ Ready (Status (prod_ca false)) = false
  /\ demo_sync working_backend (cluster false (Ok good_secret) stores) site []
     = (Returns
          (Some (Errorf
                   "issuer 'default/prod-ca' for certificate 'site' not ready"),
           site),
        [IssuersGet "default" "prod-ca"])
  /\ store_read
       (demo_effects working_backend (cluster false (Ok good_secret) stores)
          site) = false
  /\ store_written
       (demo_effects working_backend (cluster false (Ok good_secret) stores)
          site) = false.
Proof.
  split; [reflexivity|]. split; [reflexivity|].
  apply (sync_issuer_not_ready bytes demo_pem_Decode demo_ParseCertificate
           demo_ParsePKCS1PrivateKey demo_Validate
           (demo_IssuerFor working_backend)
           (cluster false (Ok good_secret) stores) site (prod_ca false) []);
    reflexivity.
Defined.

Lemma sync_store_read_failure_witness :
  step_zero_passes (demo_IssuerFor working_backend)
    (cluster true (Err server_timeout) stores) site working_backend
  /\ stored (cluster true (Err server_timeout) stores) site
     = Err server_timeout
  /\ demo_sync working_backend (cluster true (Err server_timeout) stores)
       site []
     = (Returns (Some server_timeout, site), [] ++ effects_up_to_read site)
  /\ issuance_attempted
       (demo_effects working_backend
          (cluster true (Err server_timeout) stores) site) = false.
Proof.
  assert (Hzero : step_zero_passes (demo_IssuerFor working_backend)
                    (cluster true (Err server_timeout) stores) site
                    working_backend)
    by (exists (prod_ca true); repeat split).
  split; [exact Hzero|]. split; [reflexivity|].
  apply (sync_store_read_failure bytes demo_pem_Decode demo_ParseCertificate
           demo_ParsePKCS1PrivateKey demo_Validate
           (demo_IssuerFor working_backend)
           (cluster true (Err server_timeout) stores) site working_backend
           server_timeout [] Hzero eq_refl).
  reflexivity.
Defined.

Local Abbreviation torn_secret :=
  (tls_secret [] (list_byte_of_string "key")).

Lemma sync_malformed_certificate_pem_witness :
  step_zero_passes (demo_IssuerFor working_backend)
    (cluster true (Ok torn_secret) stores) site working_backend
  /\ stored (cluster true (Ok torn_secret) stores) site = Ok torn_secret
  /\ Data torn_secret !! TLSCertKey = Some []
  /\ Data torn_secret !! TLSPrivateKeyKey = Some (list_byte_of_string "key")
  /\ demo_pem_Decode [] = None
  /\ issuance_attempted
       (demo_effects working_backend (cluster true (Ok torn_secret) stores)
          site) = true
  /\ exists err d,
      issue (cluster true (Ok torn_secret) stores) working_backend site []
      = (Returns err, CallIssue site :: d)
      /\ demo_sync working_backend (cluster true (Ok torn_secret) stores)
           site []
         = (Returns (err, site),
            [] ++ effects_up_to_read site
               ++ LoggerPrintf ("error decoding cert PEM block in '"
                                ++ SecretName (Spec site) ++ "'")
               :: CallIssue site :: d).
Proof.
  assert (Hzero : step_zero_passes (demo_IssuerFor working_backend)
                    (cluster true (Ok torn_secret) stores) site
                    working_backend)
    by (exists (prod_ca true); repeat split).
  split; [exact Hzero|]. repeat (split; [reflexivity|]).
  apply (sync_malformed_certificate_pem bytes demo_pem_Decode
           demo_ParseCertificate demo_ParsePKCS1PrivateKey demo_Validate
           (demo_IssuerFor working_backend)
           (cluster true (Ok torn_secret) stores) site working_backend
           torn_secret [] (list_byte_of_string "key") [] Hzero);
    reflexivity.
Defined.

Lemma sync_issues_when_needed_witness :
  step_zero_passes (demo_IssuerFor working_backend)
    (cluster true (Ok good_secret) stores) site working_backend
  /\ (forall err,
        stored (cluster true (Ok good_secret) stores) site = Err err ->
        IsNotFound err = true)
  /\ (demo_valid (cluster true (Ok good_secret) stores) site ->
      issuance_attempted
        (demo_effects working_backend (cluster true (Ok good_secret) stores)
           site) = false)
  /\ (absent (cluster true (Ok good_secret) stores) site ->
      issuance_attempted
        (demo_effects working_backend (cluster true (Ok good_secret) stores)
           site) = true)
  /\ (~ demo_sound (cluster true (Ok good_secret) stores) site ->
      issuance_attempted
        (demo_effects working_backend (cluster true (Ok good_secret) stores)
           site) = true).
Proof.
  assert (Hzero : step_zero_passes (demo_IssuerFor working_backend)
                    (cluster true (Ok good_secret) stores) site
                    working_backend)
    by (exists (prod_ca true); repeat split).
  assert (Hread : forall err,
             stored (cluster true (Ok good_secret) stores) site = Err err ->
             IsNotFound err = true)
    by (intros err H; discriminate H).
  split; [exact Hzero|]. split; [exact Hread|].
  exact (sync_issues_when_needed bytes demo_pem_Decode demo_ParseCertificate
           demo_ParsePKCS1PrivateKey demo_Validate
           (demo_IssuerFor working_backend)
           (cluster true (Ok good_secret) stores) site working_backend
           Hzero Hread).
Defined.

(** The credential of the witness above is valid. *)
Example good_secret_valid :
  demo_valid (cluster true (Ok good_secret) stores) site.
Proof.
  exists good_secret, {| DNSNames := ["example.com"] |},
    (list_byte_of_string "key").
  split; [reflexivity|]. split; [|split; reflexivity].
  exists (list_byte_of_string "example.com"), (list_byte_of_string "key"),
    {| Bytes := list_byte_of_string "example.com" |},
    {| Bytes := list_byte_of_string "key" |}.
  repeat split.
Qed.

(** C3 at a store read that times out: the issuer resolves and is ready and
    the stored credential is not valid (none was read), yet no issuance is
    attempted: the pass returns the read error. *)
Lemma read_failure_is_not_issuance :
  ~ demo_statement working_backend
      (cluster true (Err server_timeout) stores) site.
Proof.
  intros H. destruct H as [_ H].
  - exists (prod_ca true). split; reflexivity.
  - assert (Hissue : issuance_attempted
                       (demo_effects working_backend
                          (cluster true (Err server_timeout) stores) site)
                     = true).
    { apply H. right. intros (secret & cert & key & Hs & _).
      discriminate Hs. }
    vm_compute in Hissue. discriminate Hissue.
Qed.

(** ** The further statements at work *)

Local Abbreviation demo_goes i :=
  (goes_to_issue bytes demo_pem_Decode demo_ParseCertificate
     demo_ParsePKCS1PrivateKey demo_Validate (demo_IssuerFor i)).
Local Abbreviation demo_parses :=
  (parses bytes demo_pem_Decode demo_ParseCertificate
     demo_ParsePKCS1PrivateKey).
Local Abbreviation holding secret := (cluster true (Ok secret) stores).
Local Abbreviation name_bytes := (list_byte_of_string "example.com").
Local Abbreviation key_bytes := (list_byte_of_string "key").

Ltac demo_zero := exists (prod_ca true); repeat split.
Tactic Notation "demo_parsed" constr(cert) constr(key) :=
  exists cert, key, {| Bytes := cert |}, {| Bytes := key |}; repeat split.



Lemma sync_issuer_not_found_witness :
  Issuers_Lister_Get (holding good_secret)
    (Namespace (crt_ObjectMeta orphan)) (SpecIssuer (Spec orphan))
  = Err (StatusError StatusReasonNotFound "issuer not found")
  /\ demo_sync working_backend (holding good_secret) orphan []
     = (Returns
          (Some (Errorf
                   "issuer 'staging-ca' for certificate 'orphan' does not exist"),
           orphan),
        [IssuersGet "default" "staging-ca"]).
Proof.
  split; [reflexivity|].
  apply (sync_issuer_not_found bytes demo_pem_Decode demo_ParseCertificate
           demo_ParsePKCS1PrivateKey demo_Validate
           (demo_IssuerFor working_backend) (holding good_secret) orphan
           (StatusError StatusReasonNotFound "issuer not found") []).
  reflexivity.
Defined.

Lemma sync_no_implementation_witness :
  Issuers_Lister_Get (holding good_secret)
    (Namespace (crt_ObjectMeta site)) (SpecIssuer (Spec site))
  = Ok (prod_ca true)
  /\ Ready (Status (prod_ca true)) = true
  /\ sync bytes demo_pem_Decode demo_ParseCertificate
       demo_ParsePKCS1PrivateKey demo_Validate
       (fun _ _ => Err (errorString "issuer kind not set"))
       (holding good_secret) site []
     = (Returns
          (Some (Errorf
                   ("error getting issuer implementation for issuer 'prod-ca': "
                    ++ "issuer kind not set")), site),
        [IssuersGet "default" "prod-ca"]).
Proof.
  split; [reflexivity|]. split; [reflexivity|].
  apply (sync_no_implementation bytes demo_pem_Decode demo_ParseCertificate
           demo_ParsePKCS1PrivateKey demo_Validate
           (fun _ _ => Err (errorString "issuer kind not set"))
           (holding good_secret) site (prod_ca true)
           (errorString "issuer kind not set") []); reflexivity.
Defined.

Lemma sync_prepare_error_witness :
  Prepare (backend (Some (errorString "no account")) (Ok fresh_pair)) site
  = Some (errorString "no account")
  /\ demo_sync (backend (Some (errorString "no account")) (Ok fresh_pair))
       (holding good_secret) site []
     = (Returns (Some (errorString "no account"), site),
        [IssuersGet "default" "prod-ca"; CallPrepare site]).
Proof.
  split; [reflexivity|].
  apply (sync_prepare_error bytes demo_pem_Decode demo_ParseCertificate
           demo_ParsePKCS1PrivateKey demo_Validate
           (demo_IssuerFor
              (backend (Some (errorString "no account")) (Ok fresh_pair)))
           (holding good_secret) site (prod_ca true)
           (backend (Some (errorString "no account")) (Ok fresh_pair))
           (errorString "no account") []); reflexivity.
Defined.

Lemma sync_incomplete_credential_witness :
  step_zero_passes (demo_IssuerFor working_backend) (holding keyless_secret)
    site working_backend
  /\ stored (holding keyless_secret) site = Ok keyless_secret
  /\ Data keyless_secret !! TLSPrivateKeyKey = None
  /\ demo_goes working_backend (holding keyless_secret) site working_backend [].
Proof.
  split; [demo_zero|]. split; [reflexivity|]. split; [reflexivity|].
  apply (sync_incomplete_credential bytes demo_pem_Decode
           demo_ParseCertificate demo_ParsePKCS1PrivateKey demo_Validate
           (demo_IssuerFor working_backend) (holding keyless_secret) site
           working_backend keyless_secret);
    [demo_zero | reflexivity | right; reflexivity].
Defined.

Lemma sync_certificate_parse_failure_witness :
  step_zero_passes (demo_IssuerFor working_backend)
    (holding (tls_secret [x00] key_bytes)) site working_backend
  /\ demo_ParseCertificate [x00]
     = Err (errorString "x509: malformed certificate")
  /\ demo_goes working_backend (holding (tls_secret [x00] key_bytes)) site
       working_backend
       [LoggerPrintf ("error parsing TLS certificate in 'site-tls': "
                      ++ "x509: malformed certificate")].
Proof.
  split; [demo_zero|]. split; [reflexivity|].
  apply (sync_certificate_parse_failure bytes demo_pem_Decode
           demo_ParseCertificate demo_ParsePKCS1PrivateKey demo_Validate
           (demo_IssuerFor working_backend)
           (holding (tls_secret [x00] key_bytes)) site working_backend
           (tls_secret [x00] key_bytes) [x00] key_bytes {| Bytes := [x00] |}
           (errorString "x509: malformed certificate"));
    [demo_zero | reflexivity ..].
Defined.

Lemma sync_key_decode_failure_witness :
  step_zero_passes (demo_IssuerFor working_backend)
    (holding (tls_secret name_bytes [])) site working_backend
  /\ demo_pem_Decode [] = None
  /\ demo_goes working_backend (holding (tls_secret name_bytes [])) site
       working_backend
       [LoggerPrintf "error decoding private key PEM block in 'site-tls'"].
Proof.
  split; [demo_zero|]. split; [reflexivity|].
  apply (sync_key_decode_failure bytes demo_pem_Decode
           demo_ParseCertificate demo_ParsePKCS1PrivateKey demo_Validate
           (demo_IssuerFor working_backend)
           (holding (tls_secret name_bytes [])) site working_backend
           (tls_secret name_bytes []) name_bytes [] {| Bytes := name_bytes |}
           {| DNSNames := ["example.com"] |});
    [demo_zero | reflexivity ..].
Defined.

Lemma sync_key_parse_failure_witness :
  step_zero_passes (demo_IssuerFor working_backend)
    (holding (tls_secret name_bytes [x00])) site working_backend
  /\ demo_ParsePKCS1PrivateKey [x00]
     = Err (errorString "x509: failed to parse private key")
  /\ demo_goes working_backend (holding (tls_secret name_bytes [x00])) site
       working_backend
       [LoggerPrintf ("error parsing private key in 'site-tls': "
                      ++ "x509: failed to parse private key")].
Proof.
  split; [demo_zero|]. split; [reflexivity|].
  apply (sync_key_parse_failure bytes demo_pem_Decode
           demo_ParseCertificate demo_ParsePKCS1PrivateKey demo_Validate
           (demo_IssuerFor working_backend)
           (holding (tls_secret name_bytes [x00])) site working_backend
           (tls_secret name_bytes [x00]) name_bytes [x00]
           {| Bytes := name_bytes |} {| Bytes := [x00] |}
           {| DNSNames := ["example.com"] |}
           (errorString "x509: failed to parse private key"));
    [demo_zero | reflexivity ..].
Defined.

Lemma sync_key_validation_failure_witness :
  step_zero_passes (demo_IssuerFor working_backend)
    (holding (tls_secret name_bytes [x01])) site working_backend
  /\ demo_parses (tls_secret name_bytes [x01])
       {| DNSNames := ["example.com"] |} [x01]
  /\ demo_Validate [x01] = Some (errorString "crypto/rsa: invalid exponents")
  /\ demo_goes working_backend (holding (tls_secret name_bytes [x01])) site
       working_backend
       [LoggerPrintf ("private key failed validation in 'site-tls': "
                      ++ "crypto/rsa: invalid exponents")].
Proof.
  split; [demo_zero|]. split; [demo_parsed name_bytes [x01]|].
  split; [reflexivity|].
  apply (sync_key_validation_failure bytes demo_pem_Decode
           demo_ParseCertificate demo_ParsePKCS1PrivateKey demo_Validate
           (demo_IssuerFor working_backend)
           (holding (tls_secret name_bytes [x01])) site working_backend
           (tls_secret name_bytes [x01]) {| DNSNames := ["example.com"] |}
           [x01] (errorString "crypto/rsa: invalid exponents"));
    [demo_zero | reflexivity | demo_parsed name_bytes [x01] | reflexivity].
Defined.

Lemma sync_domain_count_mismatch_witness :
  step_zero_passes (demo_IssuerFor working_backend) (holding good_secret)
    two_sites working_backend
  /\ demo_parses good_secret {| DNSNames := ["example.com"] |} key_bytes
  /\ length (Domains (Spec two_sites)) <> length ["example.com"]
  /\ demo_goes working_backend (holding good_secret) two_sites
       working_backend
       [LoggerPrintf
          "list of domains on certificate do not match domains in spec"].
Proof.
  split; [demo_zero|]. split; [demo_parsed name_bytes key_bytes|].
  split; [discriminate|].
  apply (sync_domain_count_mismatch bytes demo_pem_Decode
           demo_ParseCertificate demo_ParsePKCS1PrivateKey demo_Validate
           (demo_IssuerFor working_backend) (holding good_secret) two_sites
           working_backend good_secret {| DNSNames := ["example.com"] |}
           key_bytes);
    [demo_zero | reflexivity | demo_parsed name_bytes key_bytes
    | reflexivity | discriminate].
Defined.

Lemma sync_nothing_to_do_witness :
  step_zero_passes (demo_IssuerFor working_backend) (holding good_secret)
    site working_backend
  /\ demo_parses good_secret {| DNSNames := ["example.com"] |} key_bytes
  /\ demo_Validate key_bytes = None
  /\ length (Domains (Spec site)) = length ["example.com"]
  /\ demo_sync working_backend (holding good_secret) site []
     = (Returns (None, sorted_request site), [] ++ effects_up_to_read site).
Proof.
  split; [demo_zero|]. split; [demo_parsed name_bytes key_bytes|].
  split; [reflexivity|]. split; [reflexivity|].
  apply (sync_nothing_to_do bytes demo_pem_Decode
           demo_ParseCertificate demo_ParsePKCS1PrivateKey demo_Validate
           (demo_IssuerFor working_backend) (holding good_secret) site
           working_backend good_secret {| DNSNames := ["example.com"] |}
           key_bytes []);
    [demo_zero | reflexivity | demo_parsed name_bytes key_bytes
    | reflexivity | reflexivity].
Defined.

Local Abbreviation empty_cluster := (cluster true (Err not_found) stores).

Lemma sync_first_issuance_witness :
  step_zero_passes (demo_IssuerFor working_backend) empty_cluster site
    working_backend
  /\ stored empty_cluster site = Err not_found
  /\ IsNotFound not_found = true
  /\ Issue working_backend site = Ok fresh_pair
  /\ demo_sync working_backend empty_cluster site []
     = (Returns (None, site),
        [] ++ effects_up_to_read site
           ++ [CallIssue site;
               SecretsCreate "default"
                 (new_Secret site (fst fresh_pair) (snd fresh_pair))]).
Proof.
  split; [demo_zero|]. repeat (split; [reflexivity|]).
  apply (sync_first_issuance bytes demo_pem_Decode
           demo_ParseCertificate demo_ParsePKCS1PrivateKey demo_Validate
           (demo_IssuerFor working_backend) empty_cluster site
           working_backend not_found (fst fresh_pair) (snd fresh_pair)
           (new_Secret site (fst fresh_pair) (snd fresh_pair)) []);
    [demo_zero | reflexivity ..].
Defined.

Lemma sync_success_after_issuance_witness :
  fst (demo_sync working_backend empty_cluster site []) = Returns (None, site)
  /\ issuance_attempted (demo_effects working_backend empty_cluster site)
     = true
  /\ exists i cert key created,
      step_zero_passes (demo_IssuerFor working_backend) empty_cluster site i
      /\ Issue i site = Ok (cert, key)
      /\ Client_Secrets_Create empty_cluster
           (Namespace (crt_ObjectMeta site)) (new_Secret site cert key)
         = Ok created
      /\ In (SecretsCreate (Namespace (crt_ObjectMeta site))
               (new_Secret site cert key))
           (demo_effects working_backend empty_cluster site).
Proof.
  split; [reflexivity|]. split; [reflexivity|].
  apply (sync_success_after_issuance bytes demo_pem_Decode
           demo_ParseCertificate demo_ParsePKCS1PrivateKey demo_Validate
           (demo_IssuerFor working_backend) empty_cluster site site);
    reflexivity.
Defined.

Lemma sync_request_untouched_witness :
  fst (demo_sync failing_backend empty_cluster two_sites [])
  = Returns
      (Some (Errorf "error issuing certificate: acme: rate limited"),
       two_sites)
  /\ Some (Errorf "error issuing certificate: acme: rate limited") <> None
  /\ two_sites = two_sites.
Proof.
  split; [reflexivity|]. split; [discriminate|].
  apply (sync_request_untouched bytes demo_pem_Decode
           demo_ParseCertificate demo_ParsePKCS1PrivateKey demo_Validate
           (demo_IssuerFor failing_backend) empty_cluster two_sites two_sites
           (Some (Errorf "error issuing certificate: acme: rate limited")));
    [reflexivity | left; discriminate].
Defined.

Lemma sync_issuance_result_witness :
  issuance_attempted (demo_effects failing_backend empty_cluster site) = true
  /\ exists i err,
      step_zero_passes (demo_IssuerFor failing_backend) empty_cluster site i
      /\ fst (issue empty_cluster i site []) = Returns err
      /\ forall j,
          fst (demo_sync failing_backend empty_cluster site j)
          = Returns (err, site).
Proof.
  split; [reflexivity|].
  apply (sync_issuance_result bytes demo_pem_Decode
           demo_ParseCertificate demo_ParsePKCS1PrivateKey demo_Validate
           (demo_IssuerFor failing_backend) empty_cluster site).
  reflexivity.
Defined.
